(** * ServerMonitor: number formatting, network history and the cluster poller

    A shallow embedding of [src/utils/numberFormat.ts] and of the data
    path of [src/app/cluster/page.tsx] (the cleanup, history and polling
    callbacks and the display helpers of the server card). *)

From Stdlib Require Import ZArith NArith Lia List Ascii String Bool.
From stdpp Require Import base option list gmap strings pretty.
Import ListNotations.

(** ** JavaScript numbers

    A JavaScript [number] is an IEEE-754 binary64 value.  A finite one is
    kept as sign, integer significand and binary exponent; its value is
    [(-1)^neg * m * 2^e]. *)

Module JSNumber.
Local Open Scope Z_scope.

Inductive number : Type :=
| NaN
| Infinity (neg : bool)
| Finite (neg : bool) (m e : Z).

Definition emin : Z := -1074.
Definition emax : Z := 971.

(** The unique binary64 encoding: 53 significand bits, normalised unless
    the exponent is the smallest one (subnormals and the two zeros). *)
Definition canonical (m e : Z) : bool :=
  (emin <=? e) && (e <=? emax) && (0 <=? m) && (m <? 2 ^ 53)
  && ((2 ^ 52 <=? m) || (e =? emin)).

Definition is_double (x : number) : bool :=
  match x with
  | Finite _ m e => canonical m e
  | _ => true
  end.

(** Magnitudes are compared as integers, counted in units of [2^emin]
    (every finite double is a whole number of them). *)
Definition one : Z := 2 ^ (- emin).
Definition units (m e : Z) : Z := m * 2 ^ (e - emin).

(** The integer [n] for which [n - num/den] is as close to zero as
    possible, the larger one when there are two. *)
Definition nearest_integer (num den : Z) : Z := (2 * num + den) / (2 * den).

(** The integer nearest to [num/den], the even one when there are two. *)
Definition round_even (num den : Z) : Z :=
  let q := num / den in
  let r := num mod den in
  if 2 * r <? den then q
  else if den <? 2 * r then q + 1
  else if Z.even q then q else q + 1.

(** What [Number.prototype.toFixed] returns, as the syntax of the string:
    - ["NaN"], ["Infinity"], ["-Infinity"];
    - an optional ["-"] and the digits of [n] with [f] of them after the
      point, which denotes [n / 10^f];
    - an optional ["-"] and [Number::toString] of a double of magnitude
      [10^21] or more. *)
Inductive numeric_string : Type :=
| StrNaN
| StrInfinity (neg : bool)
| StrFixed (neg : bool) (n : Z) (f : Z)
| StrToString (neg : bool) (m e : Z).

(** [x.toFixed(f)] (ECMA-262, Number.prototype.toFixed), for [0 <= f]. *)
Definition toFixed (x : number) (f : Z) : numeric_string :=
  match x with
  | NaN => StrNaN
  | Infinity s => StrInfinity s
  | Finite s m e =>
      let neg := s && (0 <? m) in
      if 10 ^ 21 * one <=? units m e then StrToString neg m e
      else StrFixed neg (nearest_integer (10 ^ f * units m e) one) f
  end.

(** The double nearest to [a / b] (ties to even), with the given sign:
    the value of a decimal literal. *)
Definition round_binary64 (neg : bool) (a b : Z) : number :=
  let A := a * one in
  let t := Z.max 0 (Z.log2 (A / b) - 52) in
  let m := round_even A (b * 2 ^ t) in
  let '(m, t) := if m =? 2 ^ 53 then (2 ^ 52, t + 1) else (m, t) in
  if emax <? t + emin then Infinity neg else Finite neg m (t + emin).

(** [Number(s)] on the strings [toFixed] produces.  A decimal literal
    reads as the nearest double; [Number::toString] prints enough digits
    for the string to read back as the same double (ECMA-262:
    [ToNumber(ToString(x))] is [x] for every [x] other than [-0]). *)
Definition Number (s : numeric_string) : number :=
  match s with
  | StrNaN => NaN
  | StrInfinity neg => Infinity neg
  | StrFixed neg n f => round_binary64 neg n (10 ^ f)
  | StrToString neg m e => Finite neg m e
  end.

(** Equality of numbers as values: [-0] and [+0] are the same number and
    [NaN] is itself (ECMA-262 SameValueZero). *)
Definition SameValueZero (x y : number) : bool :=
  match x, y with
  | NaN, NaN => true
  | Infinity a, Infinity b => Bool.eqb a b
  | Finite s m e, Finite s' m' e' =>
      ((m =? 0) && (m' =? 0)) || (Bool.eqb s s' && (m =? m') && (e =? e'))
  | _, _ => false
  end.

(** Truthiness of a number: [0], [-0] and [NaN] are falsy. *)
Definition truthy (x : number) : bool :=
  match x with
  | NaN => false
  | Infinity _ => true
  | Finite _ m _ => negb (m =? 0)
  end.

(** [x > 0]. *)
Definition gt_zero (x : number) : bool :=
  match x with
  | NaN => false
  | Infinity neg => negb neg
  | Finite neg m _ => negb neg && (0 <? m)
  end.

Definition zero : number := Finite false 0 emin.
Definition neg_zero : number := Finite true 0 emin.

(** The double a decimal literal [a / 10^k] denotes. *)
Definition literal (neg : bool) (a k : Z) : number := round_binary64 neg a (10 ^ k).

End JSNumber.

(** ** src/utils/numberFormat.ts *)

Definition formatNumber (num : JSNumber.number) : JSNumber.number :=
  JSNumber.Number (JSNumber.toFixed num 2).

(** ** JavaScript values and completions

    The payload of a host is whatever [response.json()] returns (TypeScript
    [any]), so it is kept as an untyped JSON value. *)

#[warnings="-register-all"]
Inductive value : Type :=
| VUndefined
| VNull
| VBool (b : bool)
| VNum (n : JSNumber.number)
| VStr (s : string)
| VArr (elems : list value)
| VObj (props : list (string * value)).

Inductive error : Type :=
| TypeError
| SyntaxError
| AbortError.

(** Normal and abrupt completion of an expression. *)
Inductive result (A : Type) : Type :=
| Ok (a : A)
| Throw (e : error).
Arguments Ok {A} a.
Arguments Throw {A} e.

#[global] Instance result_ret : MRet result := @Ok.
#[global] Instance result_bind : MBind result :=
  λ A B f r, match r with Ok a => f a | Throw e => Throw e end.
#[global] Instance result_throw : MThrow error result := @Throw.

(** The only exception an expression can throw is a [TypeError]. *)
Definition throws_TypeError_only {A : Type} (r : result A) : Prop :=
  ∀ e, r = Throw e → e = TypeError.

Module JS.

Fixpoint lookup_prop (k : string) (props : list (string * value)) : value :=
  match props with
  | [] => VUndefined
  | (k', v) :: rest => if String.eqb k k' then v else lookup_prop k rest
  end.

(** [v.k] for a data property [k] of the payload (none of the names the
    source reads is a built-in property of a string, number, boolean or
    array): reading a property of [undefined] or [null] throws. *)
Definition get (v : value) (k : string) : result value :=
  match v with
  | VUndefined | VNull => mthrow TypeError
  | VObj props => mret (lookup_prop k props)
  | _ => mret VUndefined
  end.

(** [v.k1.k2...]. *)
Fixpoint get_path (v : value) (ks : list string) : result value :=
  match ks with
  | [] => mret v
  | k :: ks => o ← get v k; get_path o ks
  end.

(** [v?.k]. *)
Definition get_optional (v : value) (k : string) : value :=
  match v with
  | VObj props => lookup_prop k props
  | _ => VUndefined
  end.

Definition ToBoolean (v : value) : bool :=
  match v with
  | VUndefined | VNull => false
  | VBool b => b
  | VNum n => JSNumber.truthy n
  | VStr s => negb (String.eqb s "")
  | VArr _ | VObj _ => true
  end.

(** [a || b]. *)
Definition or (a b : value) : value := if ToBoolean a then a else b.

(** [{ ...props, k: v }]: an existing key keeps its place. *)
Fixpoint set_prop (k : string) (v : value) (props : list (string * value))
  : list (string * value) :=
  match props with
  | [] => [(k, v)]
  | (k', v') :: rest =>
      if String.eqb k k' then (k, v) :: rest else (k', v') :: set_prop k v rest
  end.

Fixpoint chars (s : string) : list value :=
  match s with
  | EmptyString => []
  | String c rest => VStr (String c EmptyString) :: chars rest
  end.

(** The own enumerable properties [{ ...v }] copies. *)
Definition spread (v : value) : list (string * value) :=
  match v with
  | VObj props => props
  | VArr elems => imap (λ i x, (pretty i, x)) elems
  | VStr s => imap (λ i x, (pretty i, x)) (chars s)
  | _ => []
  end.

(** [l.slice(-k)]. *)
Definition slice_last {A : Type} (k : nat) (l : list A) : list A :=
  drop (length l - k) l.

End JS.

(** ** src/utils/numberFormat.ts, on payloads

    [isX86TemperatureInfo] is imported from [@/types/system]; it is a
    parameter here. *)

Section NumberFormat.
Context (isX86TemperatureInfo : value → result bool).

(** [formatNumber(v)] for a field [v] of the payload: only a number has
    [toFixed]. *)
Definition formatNumber_field (num : value) : result value :=
  match num with
  | VNum n => mret (VNum (formatNumber n))
  | _ => mthrow TypeError
  end.

Definition formatTemperature (temp : value) : result value :=
  match temp with
  | VStr s => if String.eqb s "N/A" then mret (VStr "N/A") else mthrow TypeError
  | VNum n => mret (VNum (JSNumber.Number (JSNumber.toFixed n 2)))
  | _ => mthrow TypeError
  end.

(** The callback of [data.processes.map]. *)
Definition format_process (process : value) : result value :=
  let copy := JS.spread process in
  cpu ← JS.get process "cpu" ≫= formatNumber_field;
  memory ← JS.get process "memory" ≫= formatNumber_field;
  mret (VObj (JS.set_prop "memory" memory (JS.set_prop "cpu" cpu copy))).

Definition formatServerData (data : value) : result value :=
  match data with
  | VObj _ | VArr _ =>
      cpu_usage ← JS.get_path data ["cpu"; "usage"] ≫= formatNumber_field;
      cpu_cores ← JS.get_path data ["cpu"; "cores"];
      cpu_temperature ← JS.get_path data ["cpu"; "temperature"] ≫= formatTemperature;
      memory_used ← JS.get_path data ["memory"; "used"] ≫= formatNumber_field;
      memory_total ← JS.get_path data ["memory"; "total"];
      memory_percentage ← JS.get_path data ["memory"; "percentage"] ≫= formatNumber_field;
      disk_used ← JS.get_path data ["disk"; "used"] ≫= formatNumber_field;
      disk_total ← JS.get_path data ["disk"; "total"];
      disk_percentage ← JS.get_path data ["disk"; "percentage"] ≫= formatNumber_field;
      download ← JS.get_path data ["network"; "download"] ≫= formatNumber_field;
      upload ← JS.get_path data ["network"; "upload"] ≫= formatNumber_field;
      ping ← JS.get_path data ["network"; "ping"] ≫= formatNumber_field;
      rx ← JS.get_path data ["network"; "errorRates"; "rx"];
      tx ← JS.get_path data ["network"; "errorRates"; "tx"];
      days ← JS.get_path data ["uptime"; "days"];
      hours ← JS.get_path data ["uptime"; "hours"];
      minutes ← JS.get_path data ["uptime"; "minutes"];
      x86 ← JS.get data "temperature" ≫= isX86TemperatureInfo;
      temperature ←
        (if x86 : bool then
           cpu ← JS.get_path data ["temperature"; "cpu"] ≫= formatTemperature;
           gpu ← JS.get_path data ["temperature"; "gpu"] ≫= formatTemperature;
           motherboard ← JS.get_path data ["temperature"; "motherboard"] ≫= formatTemperature;
           mret (VObj [("cpu", cpu); ("gpu", gpu); ("motherboard", motherboard)])
         else
           cpu ← JS.get_path data ["temperature"; "cpu"] ≫= formatTemperature;
           rp1 ← JS.get_path data ["temperature"; "rp1"] ≫= formatTemperature;
           ssd ← JS.get_path data ["temperature"; "ssd"] ≫= formatTemperature;
           mret (VObj [("cpu", cpu); ("rp1", rp1); ("ssd", ssd)]));
      fan_cpu ← JS.get_path data ["fan"; "cpu"] ≫= formatNumber_field;
      fan_case1 ← JS.get_path data ["fan"; "case1"] ≫= formatNumber_field;
      fan_case2 ← JS.get_path data ["fan"; "case2"] ≫= formatNumber_field;
      processes ←
        (ps ← JS.get data "processes";
         match ps with
         | VArr elems => mapM format_process elems
         | _ => mthrow TypeError
         end);
      mret (VObj [
        ("cpu", VObj [("usage", cpu_usage); ("cores", cpu_cores);
                      ("temperature", cpu_temperature)]);
        ("memory", VObj [("used", memory_used); ("total", memory_total);
                         ("percentage", memory_percentage)]);
        ("disk", VObj [("used", disk_used); ("total", disk_total);
                       ("percentage", disk_percentage)]);
        ("network", VObj [("download", download); ("upload", upload); ("ping", ping);
                          ("errorRates", VObj [("rx", rx); ("tx", tx)])]);
        ("uptime", VObj [("days", days); ("hours", hours); ("minutes", minutes)]);
        ("temperature", temperature);
        ("fan", VObj [("cpu", fan_cpu); ("case1", fan_case1); ("case2", fan_case2)]);
        ("processes", VArr processes)])
  | _ => mret data
  end.

(** The numeric leaves [formatServerData] rounds, and the leaves it
    copies, by their paths in the payload. *)
Definition rounded_paths : list (list string) := [
  ["cpu"; "usage"];
  ["memory"; "used"]; ["memory"; "percentage"];
  ["disk"; "used"]; ["disk"; "percentage"];
  ["network"; "download"]; ["network"; "upload"]; ["network"; "ping"];
  ["fan"; "cpu"]; ["fan"; "case1"]; ["fan"; "case2"]
].

Definition copied_paths : list (list string) := [
  ["cpu"; "cores"]; ["memory"; "total"]; ["disk"; "total"];
  ["network"; "errorRates"; "rx"]; ["network"; "errorRates"; "tx"];
  ["uptime"; "days"]; ["uptime"; "hours"]; ["uptime"; "minutes"]
].

End NumberFormat.

(** ** src/app/cluster/page.tsx: state and effects *)

Record Server : Type := {
  name : string;
  ip : string;
  type : string
}.

Definition RuthServer : Server :=
  {| name := "RuthServer"; ip := "ruthcloud.xyz"; type := "intel" |}.
Definition RuthPiMaster : Server :=
  {| name := "RuthPiMaster"; ip := "cluster0.ruthcloud.xyz"; type := "rpi" |}.
Definition RuthPiNode1 : Server :=
  {| name := "RuthPiNode1"; ip := "cluster1.ruthcloud.xyz"; type := "rpi" |}.
Definition RuthPiNode2 : Server :=
  {| name := "RuthPiNode2"; ip := "cluster2.ruthcloud.xyz"; type := "rpi" |}.

Definition servers : list Server :=
  [RuthServer; RuthPiMaster; RuthPiNode1; RuthPiNode2].

(** The fields hold what the expressions [networkData?.download || 0]
    and [networkData?.upload || 0] evaluate to. *)
Record NetworkHistoryEntry : Type := {
  time : string;
  download : value;
  upload : value
}.

(** The component's state cells, the local [newData] of the running
    [fetchServerData] call, and the wall clock in milliseconds. *)
Record State : Type := {
  serversData : gmap string value;
  loading : bool;
  lastUpdate : N;
  networkHistory : gmap string (list NetworkHistoryEntry);
  newData : gmap string value;
  clock : N
}.

(** The state before the first poll: the [useState] initial values. *)
Definition initial_state (now : N) : State := {|
  serversData := ∅;
  loading := true;
  lastUpdate := now;
  networkHistory := ∅;
  newData := ∅;
  clock := now
|}.

(** Effectful code: reads and writes the state, and may throw. *)
Definition M (A : Type) : Type := State → result A * State.

#[global] Instance M_ret : MRet M := λ A a st, (Ok a, st).
#[global] Instance M_bind : MBind M :=
  λ A B f m st,
    match m st with
    | (Ok a, st') => f a st'
    | (Throw e, st') => (Throw e, st')
    end.
#[global] Instance M_throw : MThrow error M := λ A e st, (Throw e, st).

(** [try { body } catch (error) { handler }]. *)
Definition try_catch {A : Type} (body : M A) (handler : error → M A) : M A :=
  λ st,
    match body st with
    | (Ok a, st') => (Ok a, st')
    | (Throw e, st') => handler e st'
    end.

(** An expression that cannot touch the state. *)
Definition lift {A : Type} (r : result A) : M A := λ st, (r, st).

Definition setNetworkHistory
    (f : gmap string (list NetworkHistoryEntry) → gmap string (list NetworkHistoryEntry))
  : M unit :=
  λ st, (Ok (), {| serversData := serversData st; loading := loading st;
                   lastUpdate := lastUpdate st;
                   networkHistory := f (networkHistory st);
                   newData := newData st; clock := clock st |}).

Definition setServersData (d : gmap string value) : M unit :=
  λ st, (Ok (), {| serversData := d; loading := loading st;
                   lastUpdate := lastUpdate st;
                   networkHistory := networkHistory st;
                   newData := newData st; clock := clock st |}).

Definition setLoading (b : bool) : M unit :=
  λ st, (Ok (), {| serversData := serversData st; loading := b;
                   lastUpdate := lastUpdate st;
                   networkHistory := networkHistory st;
                   newData := newData st; clock := clock st |}).

Definition setLastUpdate (t : N) : M unit :=
  λ st, (Ok (), {| serversData := serversData st; loading := loading st;
                   lastUpdate := t;
                   networkHistory := networkHistory st;
                   newData := newData st; clock := clock st |}).

(** [newData = {}] and [newData[k] = v]. *)
Definition newData_reset : M unit :=
  λ st, (Ok (), {| serversData := serversData st; loading := loading st;
                   lastUpdate := lastUpdate st;
                   networkHistory := networkHistory st;
                   newData := ∅; clock := clock st |}).

Definition newData_assign (k : string) (v : value) : M unit :=
  λ st, (Ok (), {| serversData := serversData st; loading := loading st;
                   lastUpdate := lastUpdate st;
                   networkHistory := networkHistory st;
                   newData := <[k := v]> (newData st); clock := clock st |}).

Definition newData_read : M (gmap string value) := λ st, (Ok (newData st), st).

(** [new Date()]. *)
Definition Date_now : M N := λ st, (Ok (clock st), st).

(** Time passing while the function is suspended at an [await]. *)
Definition elapse (d : N) : M unit :=
  λ st, (Ok (), {| serversData := serversData st; loading := loading st;
                   lastUpdate := lastUpdate st;
                   networkHistory := networkHistory st;
                   newData := newData st; clock := (clock st + d)%N |}).

(** What the network does with one request that settles: [fetch] rejects
    after [delay] ms (DNS, connection refused, TLS), or resolves after
    [delay] ms with a response whose [json()] settles [json_delay] ms
    later, with the parsed body or with a rejection.  A response whose
    body never ends is added in [Pending] below. *)
Record Response : Type := {
  ok : bool;
  json_delay : N;
  json : option value
}.

Inductive fetch_outcome : Type :=
| Rejects (delay : N)
| Resolves (delay : N) (response : Response).

Definition delay_of (o : fetch_outcome) : N :=
  match o with
  | Rejects d => d
  | Resolves d _ => d
  end.

(** [setTimeout(() => controller.abort(), 5000)]. *)
Definition timeout_ms : N := 5000.

(** [await fetch(url, { signal: controller.signal })] under the abort
    timer: a request still pending when the timer fires is aborted. *)
Definition await_fetch (o : fetch_outcome) : M Response :=
  if (timeout_ms <=? delay_of o)%N then
    elapse timeout_ms;; mthrow AbortError
  else
    elapse (delay_of o);;
    match o with
    | Rejects _ => mthrow TypeError
    | Resolves _ response => mret response
    end.

(** [await response.json()] for a body that ends; the abort timer is
    cleared by then. *)
Definition await_json (response : Response) : M value :=
  elapse (json_delay response);;
  match json response with
  | Some v => mret v
  | None => mthrow SyntaxError
  end.

Definition error_marker (message : string) : value :=
  VObj [("error", VStr message)].

Section ClusterPage.
(** [Date.prototype.toLocaleTimeString('ko-KR', ...)] and the conversion
    of a number to a string in a template literal belong to the runtime. *)
Context (toLocaleTimeString : N → string).
Context (Number_toString : JSNumber.number → string).

(** The updater [cleanupNetworkHistory] passes to [setNetworkHistory]. *)
Definition cleanup_updater (prev : gmap string (list NetworkHistoryEntry))
  : gmap string (list NetworkHistoryEntry) :=
  (λ history : list NetworkHistoryEntry,
     if 30 <? length history then JS.slice_last 30 history else history) <$> prev.

Definition cleanupNetworkHistory : M unit :=
  setNetworkHistory cleanup_updater.

Definition history_entry (time : string) (networkData : value) : NetworkHistoryEntry := {|
  time := time;
  download := JS.or (JS.get_optional networkData "download") (VNum JSNumber.zero);
  upload := JS.or (JS.get_optional networkData "upload") (VNum JSNumber.zero)
|}.

(** The updater [updateNetworkHistory] passes to [setNetworkHistory]. *)
Definition history_updater (time : string) (serverIp : string) (networkData : value)
    (prev : gmap string (list NetworkHistoryEntry))
  : gmap string (list NetworkHistoryEntry) :=
  let serverHistory := default [] (prev !! serverIp) in
  let newHistory := serverHistory ++ [history_entry time networkData] in
  <[serverIp := JS.slice_last 30 newHistory]> prev.

Definition updateNetworkHistory (serverIp : string) (networkData : value) : M unit :=
  now ← Date_now;
  let time := toLocaleTimeString now in
  setNetworkHistory (history_updater time serverIp networkData).

(** The body of the loop of [fetchServerData], for one server and what
    the network does with its request. *)
Definition fetchServerData_host (server : Server) (o : fetch_outcome) : M unit :=
  try_catch
    (response ← await_fetch o;
     if ok response then
       serverData ← await_json response;
       newData_assign (ip server) serverData;;
       network ← lift (JS.get serverData "network");
       updateNetworkHistory (ip server) network
     else
       newData_assign (ip server) (error_marker "Failed to fetch"))
    (λ _, newData_assign (ip server) (error_marker "Connection failed")).

Fixpoint fetchServerData_loop (polls : list (Server * fetch_outcome)) : M unit :=
  match polls with
  | [] => mret ()
  | (server, o) :: rest => fetchServerData_host server o;; fetchServerData_loop rest
  end.

(** One poll round over the servers, each paired with what the network
    does with its request. *)
Definition fetchServerData (polls : list (Server * fetch_outcome)) : M unit :=
  newData_reset;;
  fetchServerData_loop polls;;
  d ← newData_read;
  setServersData d;;
  setLoading false;;
  now ← Date_now;
  setLastUpdate now.

(** What the page reads for a server: [serversData[server.ip]] and
    [networkHistory[server.ip] || []]. *)
Definition read_status (st : State) (server : Server) : option value :=
  serversData st !! ip server.

Definition read_history (st : State) (serverIp : string) : list NetworkHistoryEntry :=
  default [] (networkHistory st !! serverIp).

(** *** Display helpers of the server card, on the declared interfaces *)

Record Temperature : Type := {
  temp_cpu : option JSNumber.number;
  temp_rp1 : option JSNumber.number;
  temp_ssd : option JSNumber.number
}.

Record Fan : Type := {
  fan_cpu : JSNumber.number;
  fan_case1 : JSNumber.number;
  fan_case2 : JSNumber.number
}.

(** Truthiness of an optional number field. *)
Definition present_and_truthy (x : option JSNumber.number) : option JSNumber.number :=
  match x with
  | Some n => if JSNumber.truthy n then Some n else None
  | None => None
  end.

Definition celsius (n : JSNumber.number) : string := Number_toString n +:+ "°C".

Definition getTemperatureDisplay (temperature : option Temperature) (type : string)
  : option string :=
  match temperature with
  | None => None
  | Some temperature =>
      if String.eqb type "n95" then
        match present_and_truthy (temp_cpu temperature) with
        | Some n => Some (celsius n)
        | None => Some "N/A"
        end
      else
        match present_and_truthy (temp_cpu temperature) with
        | Some n => Some (celsius n)
        | None =>
            match present_and_truthy (temp_rp1 temperature) with
            | Some n => Some (celsius n)
            | None =>
                match present_and_truthy (temp_ssd temperature) with
                | Some n => Some (celsius n)
                | None => Some "N/A"
                end
            end
        end
  end.

Definition getFanSpeed (fan : option Fan) : option string :=
  match fan with
  | None => None
  | Some fan =>
      if JSNumber.gt_zero (fan_cpu fan) then Some (Number_toString (fan_cpu fan) +:+ "RPM")
      else if JSNumber.gt_zero (fan_case1 fan) then Some (Number_toString (fan_case1 fan) +:+ "RPM")
      else if JSNumber.gt_zero (fan_case2 fan) then Some (Number_toString (fan_case2 fan) +:+ "RPM")
      else None
  end.

(** *** One loop iteration, summarised

    What one iteration of the loop of [fetchServerData] does, read off
    the branches of its body; [fetchServerData_host_effect] below proves
    the summary. *)

(** How long the loop is suspended for one server. *)
Definition host_wait (o : fetch_outcome) : N :=
  if (timeout_ms <=? delay_of o)%N then timeout_ms
  else
    match o with
    | Rejects d => d
    | Resolves d response => if ok response then (d + json_delay response)%N else d
    end.

(** What ends up in [newData[server.ip]]. *)
Definition host_status (o : fetch_outcome) : value :=
  if (timeout_ms <=? delay_of o)%N then error_marker "Connection failed"
  else
    match o with
    | Rejects _ => error_marker "Connection failed"
    | Resolves _ response =>
        if ok response then
          match json response with
          | Some VUndefined | Some VNull | None => error_marker "Connection failed"
          | Some serverData => serverData
          end
        else error_marker "Failed to fetch"
    end.

(** The argument [updateNetworkHistory] is called with, when it is called. *)
Definition host_network (o : fetch_outcome) : option value :=
  if (timeout_ms <=? delay_of o)%N then None
  else
    match o with
    | Rejects _ => None
    | Resolves _ response =>
        if ok response then
          match json response with
          | Some VUndefined | Some VNull | None => None
          | Some serverData => Some (JS.get_optional serverData "network")
          end
        else None
    end.

Definition host_effect (server : Server) (o : fetch_outcome) (st : State) : State := {|
  serversData := serversData st;
  loading := loading st;
  lastUpdate := lastUpdate st;
  networkHistory :=
    match host_network o with
    | Some networkData =>
        history_updater (toLocaleTimeString (clock st + host_wait o)%N)
          (ip server) networkData (networkHistory st)
    | None => networkHistory st
    end;
  newData := <[ip server := host_status o]> (newData st);
  clock := (clock st + host_wait o)%N
|}.

(** The loop as a whole: the iterations run one after the other. *)
Definition round_effect (polls : list (Server * fetch_outcome)) (st : State) : State :=
  fold_left (λ st '(server, o), host_effect server o st) polls st.

(** The waits of the servers add up. *)
Definition round_wait (polls : list (Server * fetch_outcome)) : N :=
  foldr (λ p total, (host_wait p.2 + total)%N) 0%N polls.

(** *** A sequence of calls of [updateNetworkHistory]

    Each call is given with the instant at which it is made. *)

Definition at_time (t : N) (st : State) : State := {|
  serversData := serversData st; loading := loading st;
  lastUpdate := lastUpdate st; networkHistory := networkHistory st;
  newData := newData st; clock := t
|}.

Definition after_appends (st : State) (calls : list (N * string * value)) : State :=
  fold_left
    (λ st '(t, serverIp, networkData),
       snd (updateNetworkHistory serverIp networkData (at_time t st)))
    calls st.

(** The points appended for one server, in arrival order. *)
Definition points_of (serverIp : string) (calls : list (N * string * value))
  : list NetworkHistoryEntry :=
  omap (λ '(t, serverIp', networkData),
          if String.eqb serverIp' serverIp
          then Some (history_entry (toLocaleTimeString t) networkData)
          else None)
       calls.

End ClusterPage.

(** ** Comparison of numbers *)

Module JSOrder.
Import JSNumber.
Local Open Scope Z_scope.

(** The value of a finite double, in units of [2^emin]. *)
Definition signed_units (neg : bool) (m e : Z) : Z :=
  if neg then - units m e else units m e.

(** [x < y]: false when either is [NaN]; [-0] and [+0] are equal. *)
Definition lt (x y : number) : bool :=
  match x, y with
  | NaN, _ | _, NaN => false
  | Infinity nx, Infinity ny => nx && negb ny
  | Infinity nx, Finite _ _ _ => nx
  | Finite _ _ _, Infinity ny => negb ny
  | Finite sx mx ex, Finite sy my ey =>
      signed_units sx mx ex <? signed_units sy my ey
  end.

(** [x > y] is [y < x]. *)
Definition gt (x y : number) : bool := lt y x.

(** [x <= y]: [y < x] is neither true nor undefined. *)
Definition le (x y : number) : bool :=
  match x, y with
  | NaN, _ | _, NaN => false
  | _, _ => negb (lt y x)
  end.

(** The double of an integer literal of the source. *)
Definition integer (n : Z) : number := literal false n 0.

End JSOrder.

(** ** src/app/cluster/page.tsx: colours, labels and the server card *)

Definition getStatusColor (percentage : JSNumber.number) : string :=
  if JSOrder.gt percentage (JSOrder.integer 80) then "#ef4444"
  else if JSOrder.gt percentage (JSOrder.integer 60) then "#f59e0b"
  else "#10b981".

Definition getTempColor (temp : option JSNumber.number) : string :=
  match temp with
  | None => "text-gray-400"
  | Some temp =>
      if JSOrder.le temp (JSOrder.integer 50) then "text-green-400"
      else if JSOrder.le temp (JSOrder.integer 65) then "text-yellow-400"
      else if JSOrder.le temp (JSOrder.integer 74) then "text-orange-400"
      else "text-red-400"
  end.

(** [a || b] on optional number fields. *)
Definition or_number (a b : option JSNumber.number) : option JSNumber.number :=
  match present_and_truthy a with
  | Some n => Some n
  | None => b
  end.

(** The argument of [getTempColor] in the server card:
    [server.type === 'intel' ? temperature?.cpu
     : temperature?.cpu || temperature?.rp1 || temperature?.ssd]. *)
Definition card_temperature_reading (server_type : string)
    (temperature : option Temperature) : option JSNumber.number :=
  if String.eqb server_type "intel" then temperature ≫= temp_cpu
  else or_number (or_number (temperature ≫= temp_cpu) (temperature ≫= temp_rp1))
         (temperature ≫= temp_ssd).

(** The temperature line of the server card: nothing when
    [getTemperatureDisplay] returns [null] (or an empty string),
    otherwise the class of the text and the text. *)
Definition card_temperature (Number_toString : JSNumber.number → string)
    (server : Server) (temperature : option Temperature) : option (string * string) :=
  match getTemperatureDisplay Number_toString temperature (type server) with
  | None => None
  | Some text =>
      if String.eqb text "" then None
      else Some (getTempColor (card_temperature_reading (type server) temperature), text)
  end.

(** [!data || data.error]: the server card and the chart row show the
    server as offline. *)
Definition shown_offline (data : option value) : bool :=
  match data with
  | None => true
  | Some data => negb (JS.ToBoolean data) || JS.ToBoolean (JS.get_optional data "error")
  end.

(** [data?.error || 'Offline']: the text of an offline card. *)
Definition offline_message (data : option value) : value :=
  JS.or (default VUndefined ((λ data, JS.get_optional data "error") <$> data))
        (VStr "Offline").

(** [s.split(sep)] for a separator of one character.  Strings are kept
    as bytes; the separators of the source are ASCII, which no multi-byte
    character contains. *)
Fixpoint split (sep : ascii) (s : string) : list string :=
  match s with
  | EmptyString => [EmptyString]
  | String c rest =>
      if Ascii.eqb c sep then EmptyString :: split sep rest
      else
        match split sep rest with
        | [] => [String c EmptyString]
        | piece :: pieces => String c piece :: pieces
        end
  end.

(** [Object.keys(v)] of a payload object. *)
Definition keys (v : value) : list string :=
  match v with
  | VObj props => props.*1
  | _ => []
  end.

(** What the callback of [data.processes.map] makes of one process:
    cpu and memory rounded, the other fields kept. *)
Definition process_rounded (process formatted : value) : Prop :=
  ∃ cpu memory,
    JS.get process "cpu" = Ok (VNum cpu)
    ∧ JS.get process "memory" = Ok (VNum memory)
    ∧ JS.get formatted "cpu" = Ok (VNum (formatNumber cpu))
    ∧ JS.get formatted "memory" = Ok (VNum (formatNumber memory))
    ∧ ∀ k, k ≠ "cpu" → k ≠ "memory" → JS.get formatted k = JS.get process k.

(** The character occurs in the string. *)
Fixpoint occurs (c : ascii) (s : string) : bool :=
  match s with
  | EmptyString => false
  | String c' rest => Ascii.eqb c' c || occurs c rest
  end.

(** [topProcess.name.split(' ')[0].split('/').pop()]. *)
Definition process_label (name : string) : string :=
  List.last (split "/"%char (hd EmptyString (split " "%char name))) EmptyString.

(** [server.ip.split(':')[0]]. *)
Definition address_label (address : string) : string :=
  hd EmptyString (split ":"%char address).

(** *** Every writer of the network history

    [setNetworkHistory] is called with the updater of
    [updateNetworkHistory], with the updater of [cleanupNetworkHistory],
    and with [{}] when the page is unmounted. *)
Inductive history_write : Type :=
| Append (time : string) (serverIp : string) (networkData : value)
| Cleanup
| Unmount.

Definition write_history (h : gmap string (list NetworkHistoryEntry)) (w : history_write)
  : gmap string (list NetworkHistoryEntry) :=
  match w with
  | Append time serverIp networkData => history_updater time serverIp networkData h
  | Cleanup => cleanup_updater h
  | Unmount => ∅
  end.

(** No history is longer than 30 entries. *)
Definition bounded (h : gmap string (list NetworkHistoryEntry)) : Prop :=
  ∀ serverIp history, h !! serverIp = Some history → length history ≤ 30.

(** Severity of the colours, mildest first. *)
Definition status_severity (color : string) : nat :=
  if String.eqb color "#ef4444" then 2
  else if String.eqb color "#f59e0b" then 1
  else 0.

Definition temp_severity (class : string) : nat :=
  if String.eqb class "text-red-400" then 3
  else if String.eqb class "text-orange-400" then 2
  else if String.eqb class "text-yellow-400" then 1
  else 0.

(** ** src/app/cluster/page.tsx: a body that never ends

    [fetch] resolves when the status and the headers of the response have
    arrived; [response.json()] settles when the body has been read to its
    end.  [clearTimeout(timeoutId)] runs in between, so once the headers
    are there nothing aborts the request any more: a body that never ends
    leaves [await response.json()] pending, and the call of
    [fetchServerData] with it.

    [Pending] is the poll round with this case.  The definitions of the
    same names above are its restriction to bodies that end
    ([fetchServerData_settled] below). *)

Module Pending.

(** How far a call gets: it returns or throws, or it stays suspended at
    an [await] that is never resumed, in the state it has reached. *)
Inductive run (A : Type) : Type :=
| Returned (r : result A) (st : State)
| Suspended (st : State).
Arguments Returned {A} r st.
Arguments Suspended {A} st.

Definition P (A : Type) : Type := State → run A.

#[global] Instance P_ret : MRet P := λ A a st, Returned (Ok a) st.
#[global] Instance P_bind : MBind P :=
  λ A B f m st,
    match m st with
    | Returned (Ok a) st' => f a st'
    | Returned (Throw e) st' => Returned (Throw e) st'
    | Suspended st' => Suspended st'
    end.
#[global] Instance P_throw : MThrow error P := λ A e st, Returned (Throw e) st.

(** [try { body } catch (error) { handler }]: a suspended body never
    reaches the handler. *)
Definition try_catch {A : Type} (body : P A) (handler : error → P A) : P A :=
  λ st,
    match body st with
    | Returned (Ok a) st' => Returned (Ok a) st'
    | Returned (Throw e) st' => handler e st'
    | Suspended st' => Suspended st'
    end.

(** Code that completes. *)
Definition settled {A : Type} (m : M A) : P A :=
  λ st, let (r, st') := m st in Returned r st'.

(** [await] of a promise that never settles. *)
Definition never {A : Type} : P A := λ st, Suspended st.

(** A response as [fetch] resolves with it: one whose body ends, as
    above, or the status alone, with a body that never ends. *)
Inductive response : Type :=
| Complete (r : Response)
| Endless (status_ok : bool).

Definition ok (r : response) : bool :=
  match r with
  | Complete r => ok r
  | Endless status_ok => status_ok
  end.

Inductive fetch_outcome : Type :=
| Rejects (delay : N)
| Resolves (delay : N) (r : response).

Definition delay_of (o : fetch_outcome) : N :=
  match o with
  | Rejects d => d
  | Resolves d _ => d
  end.

(** [await fetch(url, { signal: controller.signal })] under the abort
    timer. *)
Definition await_fetch (o : fetch_outcome) : P response :=
  if (timeout_ms <=? delay_of o)%N then
    settled (elapse timeout_ms);; mthrow AbortError
  else
    settled (elapse (delay_of o));;
    match o with
    | Rejects _ => mthrow TypeError
    | Resolves _ r => mret r
    end.

(** [await response.json()], the abort timer cleared. *)
Definition await_json (r : response) : P value :=
  match r with
  | Complete r => settled (await_json r)
  | Endless _ => never
  end.

Section ClusterPage.
Context (toLocaleTimeString : N → string).

Definition fetchServerData_host (server : Server) (o : fetch_outcome) : P unit :=
  try_catch
    (response ← await_fetch o;
     if ok response then
       serverData ← await_json response;
       settled (newData_assign (ip server) serverData);;
       network ← settled (lift (JS.get serverData "network"));
       settled (updateNetworkHistory toLocaleTimeString (ip server) network)
     else
       settled (newData_assign (ip server) (error_marker "Failed to fetch")))
    (λ _, settled (newData_assign (ip server) (error_marker "Connection failed"))).

Fixpoint fetchServerData_loop (polls : list (Server * fetch_outcome)) : P unit :=
  match polls with
  | [] => mret ()
  | (server, o) :: rest => fetchServerData_host server o;; fetchServerData_loop rest
  end.

Definition fetchServerData (polls : list (Server * fetch_outcome)) : P unit :=
  settled newData_reset;;
  fetchServerData_loop polls;;
  d ← settled newData_read;
  settled (setServersData d);;
  settled (setLoading false);;
  now ← settled Date_now;
  settled (setLastUpdate now).

End ClusterPage.

End Pending.

(** What the network does with a request whose body, if any, ends. *)
Definition settles (o : fetch_outcome) : Pending.fetch_outcome :=
  match o with
  | Rejects d => Pending.Rejects d
  | Resolves d response => Pending.Resolves d (Pending.Complete response)
  end.

Definition all_settle (polls : list (Server * fetch_outcome))
  : list (Server * Pending.fetch_outcome) :=
  prod_map id settles <$> polls.

(** A success status after [delay] ms, and a body that never ends. *)
Definition stalls (delay : N) : Pending.fetch_outcome :=
  Pending.Resolves delay (Pending.Endless true).

(** The request as one that settles.  A body that never ends is not
    awaited when the request is aborted by the timer or the status is not
    a success; otherwise the request does not settle. *)
Definition as_settled (o : Pending.fetch_outcome) : option fetch_outcome :=
  match o with
  | Pending.Rejects d => Some (Rejects d)
  | Pending.Resolves d (Pending.Complete response) => Some (Resolves d response)
  | Pending.Resolves d (Pending.Endless status_ok) =>
      if (timeout_ms <=? d)%N || negb status_ok
      then Some (Resolves d {| ok := status_ok; json_delay := 0; json := None |})
      else None
  end.

(** ** Sample inputs

    Stand-ins for the two runtime functions (they print the instant in
    milliseconds, and the significand and exponent of the double), and a
    payload as the agents send it. *)

Definition sample_toLocaleTimeString (t : N) : string := pretty t.

Definition sample_Number_toString (x : JSNumber.number) : string :=
  match x with
  | JSNumber.NaN => "NaN"
  | JSNumber.Infinity neg => if neg then "-Infinity" else "Infinity"
  | JSNumber.Finite neg m e => (if neg then "-" else "") +:+ pretty m +:+ "p" +:+ pretty e
  end.

(** Modelled from the spec: [isX86TemperatureInfo] is declared in
    [@/types/system], which is not among the sources.  The spec (4.1)
    has the variant selected by field presence: [{cpu, gpu, motherboard}]
    is the x86 one. *)
Definition isX86TemperatureInfo_by_presence (temp : value) : result bool :=
  match temp with
  | VUndefined | VNull => mthrow TypeError
  | VObj props =>
      mret (bool_decide ("gpu" ∈ props.*1) && bool_decide ("motherboard" ∈ props.*1))
  | _ => mret false
  end.

Definition num (a k : Z) : value := VNum (JSNumber.literal false a k).

(** A payload with the given [temperature] object; [cpu.usage] is 45.678. *)
Definition sample_payload (temperature : value) : value :=
  VObj [
    ("cpu", VObj [("usage", num 45678 3); ("cores", num 4 0); ("temperature", num 515 1)]);
    ("memory", VObj [("used", num 20485 1); ("total", num 8192 0); ("percentage", num 25006 3)]);
    ("disk", VObj [("used", num 1205 1); ("total", num 512 0); ("percentage", num 23535 3)]);
    ("network", VObj [("download", num 1234 3); ("upload", num 0 0); ("ping", num 12 0);
                      ("errorRates", VObj [("rx", VStr "0.00"); ("tx", VStr "0.01")])]);
    ("uptime", VObj [("days", num 3 0); ("hours", num 4 0); ("minutes", num 5 0)]);
    ("temperature", temperature);
    ("fan", VObj [("cpu", num 1200 0); ("case1", num 0 0); ("case2", num 0 0)]);
    ("processes", VArr [VObj [("name", VStr "node"); ("cpu", num 12345 3); ("memory", num 5 1)]])
  ].

Definition arm_temperature : value :=
  VObj [("cpu", num 40005 3); ("rp1", num 38 0); ("ssd", VStr "N/A")].

Definition x86_temperature : value :=
  VObj [("cpu", num 45678 3); ("gpu", num 501 1); ("motherboard", num 30 0)].

(** The x86 payload with two processes, the busier one first. *)
Definition ranked_payload : list (string * value) :=
  JS.set_prop "processes"
    (VArr [VObj [("name", VStr "/usr/bin/node server.js"); ("cpu", num 12345 3);
                 ("memory", num 5 1)];
           VObj [("name", VStr "sshd"); ("cpu", num 12344 3); ("memory", num 1 1)]])
    (match sample_payload x86_temperature with
     | VObj props => props
     | _ => []
     end).

(** What [formatServerData] makes of it. *)
Definition ranked_formatted : value :=
  Eval vm_compute in
    match formatServerData isX86TemperatureInfo_by_presence (VObj ranked_payload) with
    | Ok formatted => formatted
    | Throw _ => VUndefined
    end.

(** A state whose histories hold two points for one server. *)
Definition sample_state : State :=
  after_appends sample_toLocaleTimeString (initial_state 0)
    [(1000%N, ip RuthServer, VObj []); (2000%N, ip RuthServer, VObj [])].

(** A success response with the given body, read in 5 ms. *)
Definition answer (body : value) : Response :=
  {| ok := true; json_delay := 5; json := Some body |}.

(** What [formatServerData] makes of the x86 payload. *)
Definition sample_formatted : value :=
  Eval vm_compute in
    match formatServerData isX86TemperatureInfo_by_presence
            (sample_payload x86_temperature) with
    | Ok formatted => formatted
    | Throw _ => VUndefined
    end.

(** ** Rounding to two decimals: arithmetic of [toFixed] and [Number] *)

Module RoundingFacts.
Import JSNumber.
Local Open Scope Z_scope.

Lemma nearest_integer_spec (num den n : Z) :
  0 < den ->
  nearest_integer num den = n <->
  2 * den * n - den <= 2 * num < 2 * den * n + den.
Proof.
  intros Hden. unfold nearest_integer. split.
  - intros <-.
    pose proof (Z.div_mod (2 * num + den) (2 * den) ltac:(lia)) as Hdm.
    pose proof (Z.mod_pos_bound (2 * num + den) (2 * den) ltac:(lia)) as Hb.
    nia.
  - intros [Hlo Hhi]. symmetry.
    apply (Z.div_unique _ _ _ (2 * num + den - 2 * den * n)); lia.
Qed.

Lemma round_even_bound (num den : Z) :
  0 < den ->
  - den <= 2 * (round_even num den * den - num) <= den.
Proof.
  intros Hden. unfold round_even.
  pose proof (Z.div_mod num den ltac:(lia)) as Hdm.
  pose proof (Z.mod_pos_bound num den Hden) as Hb.
  destruct (Z.ltb_spec (2 * (num mod den)) den);
    [| destruct (Z.ltb_spec den (2 * (num mod den)));
       [| destruct (Z.even (num / den))]]; nia.
Qed.

(** No integer multiple of [den] is nearer to [num] than the rounded one. *)
Lemma round_even_nearest (num den j : Z) :
  0 < den ->
  Z.abs (round_even num den * den - num) <= Z.abs (j * den - num).
Proof.
  intros Hden. pose proof (round_even_bound num den Hden) as Hb.
  destruct (Z.eq_dec j (round_even num den)) as [-> | Hne]; [lia |].
  assert (j <= round_even num den - 1 \/ round_even num den + 1 <= j) as [Hj | Hj]
    by lia; nia.
Qed.

Lemma one_pos : 0 < one.
Proof. reflexivity. Qed.

(** 100 does not divide a power of two: no double lies exactly halfway
    between two numbers of hundredths at distance 0.01 from another one. *)
Lemma one_mod_5 : one mod 5 <> 0.
Proof. vm_compute. discriminate. Qed.

Lemma canonical_spec (m e : Z) :
  canonical m e = true <->
  emin <= e <= emax /\ 0 <= m < 2 ^ 53 /\ (2 ^ 52 <= m \/ e = emin).
Proof.
  unfold canonical. rewrite !andb_true_iff, orb_true_iff.
  rewrite !Z.leb_le, Z.ltb_lt, Z.eqb_eq. tauto.
Qed.

Lemma units_shift (m t : Z) : units m (t + emin) = m * 2 ^ t.
Proof. unfold units. do 2 f_equal. lia. Qed.

Lemma pow2_pos (t : Z) : 0 <= t -> 0 < 2 ^ t.
Proof. intros. apply Z.pow_pos_nonneg; lia. Qed.

Lemma units_nonneg (m e : Z) : canonical m e = true -> 0 <= units m e.
Proof.
  intros Hc. apply canonical_spec in Hc as (He & Hm & _). unfold units.
  pose proof (pow2_pos (e - emin) ltac:(lia)). nia.
Qed.

(** The largest double below [10^21] is [10^21 - 2^17]. *)
Lemma units_below_1e21 (m e : Z) :
  canonical m e = true ->
  units m e < 10 ^ 21 * one ->
  units m e <= (10 ^ 21 - 2 ^ 17) * one.
Proof.
  intros Hc Hlt. apply canonical_spec in Hc as (He & Hm & _).
  pose proof one_pos as Hone. unfold units, emin in *.
  destruct (Z.le_gt_cases 17 e) as [Hge | Hlt17].
  - replace (e - -1074) with ((e - 17) + 17 + 1074) in * by lia.
    rewrite !Z.pow_add_r in * by lia.
    change (2 ^ 1074) with one in *.
    pose proof (pow2_pos (e - 17) ltac:(lia)) as Hp.
    set (K := m * 2 ^ (e - 17)).
    assert (K * 2 ^ 17 < 10 ^ 21) as HK by (subst K; nia).
    assert (K <= 5 ^ 21 * 2 ^ 4 - 1) as HK' by lia.
    subst K. nia.
  - assert (2 ^ (e - -1074) <= 2 ^ (16 + 1074)) as Hpow
      by (apply Z.pow_le_mono_r; lia).
    rewrite Z.pow_add_r in Hpow by lia.
    change (2 ^ 1074) with one in *.
    pose proof (pow2_pos (e - -1074) ltac:(lia)) as Hp.
    nia.
Qed.

(** The sign of a decimal literal only sets the sign of its double. *)
Lemma round_binary64_sign (neg : bool) (a b : Z) :
  round_binary64 neg a b =
  match round_binary64 false a b with
  | Finite _ m e => Finite neg m e
  | Infinity _ => Infinity neg
  | NaN => NaN
  end.
Proof.
  unfold round_binary64.
  destruct (_ =? 2 ^ 53); destruct (emax <? _); reflexivity.
Qed.

Lemma round_even_nonneg (num den : Z) :
  0 <= num -> 0 < den -> 0 <= round_even num den.
Proof.
  intros Hnum Hden. unfold round_even.
  pose proof (Z.div_pos num den Hnum Hden).
  destruct (_ <? _); [| destruct (_ <? _); [| destruct (Z.even _)]]; lia.
Qed.

(** *** The double of a quotient

    For [0 <= a] and [0 < b], [round_binary64] rounds [a / b] on the grid
    of spacing [2^t] (in units of [2^emin]). *)

Section Quotient.
Variables a b : Z.
Hypothesis Ha : 0 <= a.
Hypothesis Hb : 0 < b.

Let A := a * one.
Let t := Z.max 0 (Z.log2 (A / b) - 52).
Let mr := round_even A (b * 2 ^ t).

Lemma exponent_nonneg : 0 <= t.
Proof. subst t. lia. Qed.

(** The grid is the one of the binade of [a / b]. *)
Lemma exponent_binade :
  A / b < 2 ^ 53 * 2 ^ t /\ (t = 0 \/ 2 ^ 52 * 2 ^ t <= A / b).
Proof.
  pose proof exponent_nonneg as Ht0.
  destruct (Z.le_gt_cases (A / b) 0) as [Hz | Hpos].
  - assert (t = 0) as Ht by (subst t; rewrite (Z.log2_nonpos _ Hz); lia).
    rewrite Ht. split; [| left; reflexivity]. simpl. lia.
  - destruct (Z.log2_spec _ Hpos) as [Hlo Hhi]. split.
    + eapply Z.lt_le_trans; [exact Hhi |].
      rewrite <- Z.pow_add_r by lia. apply Z.pow_le_mono_r; subst t; lia.
    + destruct (Z.eq_dec t 0) as [| Hne]; [left; assumption | right].
      rewrite <- Z.pow_add_r by lia.
      replace (52 + t) with (Z.log2 (A / b)) by (subst t; lia). exact Hlo.
Qed.

(** The rounded significand has 53 bits, and exactly 53 above the
    subnormal range; [2^53] stands for a carry into the next binade. *)
Lemma significand_range : 0 <= mr <= 2 ^ 53 /\ (t = 0 \/ 2 ^ 52 <= mr).
Proof.
  pose proof exponent_nonneg as Ht0. pose proof (pow2_pos t Ht0) as HP.
  pose proof one_pos as Hone.
  destruct exponent_binade as [Hup Hnorm].
  pose proof (round_even_bound A (b * 2 ^ t) ltac:(nia)) as Hbound. fold mr in Hbound.
  pose proof (Z.mul_div_le A b Hb) as Hdivlo.
  pose proof (Z.mul_succ_div_gt A b Hb) as Hdivhi.
  assert (0 <= A) as HA by (subst A; nia).
  split; [split |].
  - apply round_even_nonneg; nia.
  - nia.
  - destruct Hnorm as [Hz | Hlo]; [left; exact Hz | right; nia].
Qed.

(** No double is nearer to [a / b] than [mr * 2^t]. *)
Lemma grid_nearest (m' e' : Z) :
  canonical m' e' = true ->
  Z.abs (b * (mr * 2 ^ t) - A) <= Z.abs (b * units m' e' - A).
Proof.
  intros Hc. apply canonical_spec in Hc as (He & Hm & _).
  pose proof exponent_nonneg as Ht0. pose proof (pow2_pos t Ht0) as HP.
  destruct (Z.le_gt_cases t (e' - emin)) as [Hle | Hgt].
  - pose proof (round_even_nearest A (b * 2 ^ t) (m' * 2 ^ (e' - emin - t)) ltac:(nia))
      as Hnear. fold mr in Hnear.
    replace (units m' e') with (m' * 2 ^ (e' - emin - t) * 2 ^ t); [lia |].
    unfold units. rewrite <- Z.mul_assoc, <- Z.pow_add_r by lia.
    do 2 f_equal. lia.
  - pose proof (round_even_nearest A (b * 2 ^ t) (2 ^ 52) ltac:(nia)) as Hnear.
    fold mr in Hnear.
    destruct exponent_binade as [_ [Hz | Hlo]]; [lia |].
    pose proof (Z.mul_div_le A b Hb) as Hdivlo.
    assert (2 * 2 ^ (e' - emin) <= 2 ^ t) as Hgrid.
    { replace t with (1 + (t - 1)) at 1 by lia.
      rewrite Z.pow_add_r by lia. change (2 ^ 1) with 2.
      apply Z.mul_le_mono_nonneg_l; [lia |].
      apply Z.pow_le_mono_r; lia. }
    pose proof (pow2_pos (e' - emin) ltac:(lia)) as HPe.
    assert (units m' e' <= 2 ^ 52 * 2 ^ t) as Hbelow by (unfold units; nia).
    assert (b * (2 ^ 52 * 2 ^ t) <= A) as Hgrid_le by nia.
    assert (b * units m' e' <= b * (2 ^ 52 * 2 ^ t)) as Hmono
      by (apply Z.mul_le_mono_nonneg_l; lia).
    lia.
Qed.

(** Unless the exponent overflows, the result is a double, and its
    magnitude is [mr * 2^t]. *)
Lemma round_binary64_finite (neg : bool) :
  t + 1 + emin <= emax ->
  exists m e,
    round_binary64 neg a b = Finite neg m e
    /\ canonical m e = true
    /\ units m e = mr * 2 ^ t.
Proof.
  intros Hov. pose proof exponent_nonneg as Ht0.
  destruct significand_range as [Hrange Hnorm].
  unfold round_binary64. fold A. fold t. fold mr.
  destruct (Z.eqb_spec mr (2 ^ 53)) as [Heq | Hne].
  - destruct (Z.ltb_spec emax (t + 1 + emin)) as [| _]; [lia |].
    exists (2 ^ 52), (t + 1 + emin). split; [reflexivity |]. split.
    + apply canonical_spec. unfold emin, emax in *. lia.
    + rewrite units_shift, Heq, Z.pow_add_r by lia. lia.
  - destruct (Z.ltb_spec emax (t + emin)) as [| _]; [lia |].
    exists mr, (t + emin). split; [reflexivity |]. split.
    + apply canonical_spec. unfold emin, emax in *. lia.
    + apply units_shift.
Qed.

End Quotient.

(** [Number] of a decimal literal is a nearest double. *)
Lemma round_binary64_nearest (neg : bool) (a b m e m' e' : Z) :
  0 <= a -> 0 < b ->
  round_binary64 neg a b = Finite neg m e ->
  canonical m' e' = true ->
  Z.abs (b * units m e - a * one) <= Z.abs (b * units m' e' - a * one).
Proof.
  intros Ha Hb Hround Hc.
  pose proof (grid_nearest a b Hb m' e' Hc) as Hnear.
  cbv zeta in Hnear.
  set (t := Z.max 0 (Z.log2 (a * one / b) - 52)) in *.
  set (mr := round_even (a * one) (b * 2 ^ t)) in *.
  assert (units m e = mr * 2 ^ t) as ->; [| exact Hnear].
  unfold round_binary64 in Hround. fold t mr in Hround.
  assert (0 <= t) as Ht0 by (subst t; lia).
  destruct (Z.eqb_spec mr (2 ^ 53)) as [Heq | Hne];
    destruct (emax <? _); try discriminate;
    injection Hround as <- <-; rewrite units_shift; [| reflexivity].
  rewrite Heq, Z.pow_add_r by lia. lia.
Qed.

(** A double below [10^21] that [toFixed(2)] prints as [n] hundredths:
    reading the string back gives a double, again below [10^21], that
    prints as the same [n]. *)
Lemma hundredths_round_trip (m e : Z) :
  canonical m e = true ->
  units m e < 10 ^ 21 * one ->
  let n := nearest_integer (10 ^ 2 * units m e) one in
  exists m' e',
    round_binary64 false n (10 ^ 2) = Finite false m' e'
    /\ canonical m' e' = true
    /\ units m' e' < 10 ^ 21 * one
    /\ nearest_integer (10 ^ 2 * units m' e') one = n.
Proof.
  intros Hc Hlt n.
  pose proof (units_below_1e21 m e Hc Hlt) as Hpred.
  pose proof (units_nonneg m e Hc) as HV.
  pose proof one_pos as Hone. pose proof one_mod_5 as H5.
  assert (nearest_integer (10 ^ 2 * units m e) one = n) as Hn by reflexivity.
  apply nearest_integer_spec in Hn; [| exact Hone].
  assert (0 <= n) as Hn0 by nia.
  assert (n <= 10 ^ 23 - 100 * 2 ^ 17) as Hnmax by nia.
  change (10 ^ 2) with 100 in *.
  (* the literal is far from the overflow threshold *)
  assert (Z.max 0 (Z.log2 (n * one / 100) - 52) + 1 + emin <= emax) as Hov.
  { destruct (Z.le_gt_cases (n * one / 100) 0) as [Hz | Hpos].
    - rewrite (Z.log2_nonpos _ Hz). unfold emin, emax. lia.
    - assert (Z.log2 (n * one / 100) < 70 + 1074) as Hlog;
        [| unfold emin, emax; lia].
      apply Z.log2_lt_pow2; [lia |].
      rewrite Z.pow_add_r by lia. change (2 ^ 1074) with one.
      apply Z.div_lt_upper_bound; [lia |]. nia. }
  destruct (round_binary64_finite n 100 Hn0 ltac:(lia) false Hov)
    as (m' & e' & Hround & Hc' & Hunits).
  pose proof (round_binary64_nearest false n 100 m' e' m e Hn0 ltac:(lia) Hround Hc)
    as Hnear.
  pose proof (units_nonneg m' e' Hc') as HW.
  clear Hunits Hov.
  (* toFixed cannot tell the nearest double from the one we started with *)
  assert (200 * units m' e' <> 2 * one * n + one) as Hne.
  { intros Heq.
    assert (one = 5 * (20 * (units m' e' - units m e))) as Hone5 by lia.
    apply H5. rewrite Hone5, Z.mul_comm. apply Z.mod_mul. lia. }
  exists m', e'. split; [exact Hround |]. split; [exact Hc' |].
  split; [nia |].
  apply nearest_integer_spec; [exact Hone | lia].
Qed.

End RoundingFacts.

(** ** Properties of [formatNumber] *)

Section FormatNumberProperties.
Import JSNumber RoundingFacts.
Local Open Scope Z_scope.

(** [formatNumber] of a double, by cases: non-finite values and doubles
    of magnitude [10^21] or more come back unchanged; any other double
    becomes the double nearest to its number of hundredths. *)
Lemma formatNumber_finite (s : bool) (m e : Z) :
  formatNumber (Finite s m e) =
  if 10 ^ 21 * one <=? units m e then Finite (s && (0 <? m)) m e
  else round_binary64 (s && (0 <? m))
         (nearest_integer (10 ^ 2 * units m e) one) (10 ^ 2).
Proof.
  unfold formatNumber, toFixed. destruct (_ <=? _); reflexivity.
Qed.

Lemma formatNumber_twice (s : bool) (m e : Z) :
  canonical m e = true ->
  exists s' m' e',
    formatNumber (Finite s m e) = Finite s' m' e'
    /\ formatNumber (Finite s' m' e') = Finite (s' && (0 <? m')) m' e'
    /\ canonical m' e' = true.
Proof.
  intros Hc. rewrite formatNumber_finite.
  destruct (Z.leb_spec (10 ^ 21 * one) (units m e)) as [Hbig | Hsmall].
  - exists (s && (0 <? m))%bool, m, e. split; [reflexivity |].
    rewrite formatNumber_finite.
    destruct (Z.leb_spec (10 ^ 21 * one) (units m e)); [| lia].
    split; [reflexivity | exact Hc].
  - destruct (hundredths_round_trip m e Hc Hsmall) as (m' & e' & Hr & Hc' & Hlt & Hn).
    cbv zeta in Hr, Hn.
    exists (s && (0 <? m))%bool, m', e'.
    rewrite round_binary64_sign, Hr. split; [reflexivity |].
    rewrite formatNumber_finite.
    destruct (Z.leb_spec (10 ^ 21 * one) (units m' e')); [lia |].
    rewrite Hn, round_binary64_sign, Hr. split; [reflexivity | exact Hc'].
Qed.

(** [formatNumber] returns a double. *)
Lemma formatNumber_is_double (x : number) :
  is_double x = true -> is_double (formatNumber x) = true.
Proof.
  destruct x as [| s | s m e]; simpl is_double; intros Hc; try reflexivity.
  destruct (formatNumber_twice s m e Hc) as (s' & m' & e' & -> & _ & Hc').
  exact Hc'.
Qed.

(** C10: for every number [x], rounding to two decimals with
    [formatNumber], that is [Number(x.toFixed(2))], is idempotent:
    [formatNumber (formatNumber x)] is the same number as
    [formatNumber x]. *)
Theorem formatNumber_idempotent (x : number) :
  is_double x = true ->
  SameValueZero (formatNumber (formatNumber x)) (formatNumber x) = true.
Proof.
  destruct x as [| s | s m e]; simpl is_double; intros Hc.
  - reflexivity.
  - simpl. apply Bool.eqb_reflx.
  - destruct (formatNumber_twice s m e Hc) as (s' & m' & e' & -> & -> & Hc').
    apply canonical_spec in Hc' as (_ & Hm' & _).
    simpl. destruct (Z.eqb_spec m' 0) as [-> | Hne]; [reflexivity |].
    assert ((0 <? m') = true) as -> by (apply Z.ltb_lt; lia).
    rewrite andb_true_r, Bool.eqb_reflx, !Z.eqb_refl. reflexivity.
Qed.

Lemma formatNumber_idempotent_witness :
  is_double (literal false 45678 3) = true
  /\ SameValueZero (formatNumber (formatNumber (literal false 45678 3)))
       (formatNumber (literal false 45678 3)) = true.
Proof.
  split; [reflexivity | apply formatNumber_idempotent; reflexivity].
Defined.

(** X2: [formatNumber (formatNumber x)] and [formatNumber x] are the
    very same double unless [formatNumber x] is [-0]:
    [(-0).toFixed(2)] is ["0.00"], which reads back as [+0]. *)
Lemma formatNumber_twice_same_bits (x : number) :
  is_double x = true ->
  formatNumber x <> neg_zero ->
  formatNumber (formatNumber x) = formatNumber x.
Proof.
  destruct x as [| s | s m e]; simpl is_double; intros Hc Hnz.
  - reflexivity.
  - reflexivity.
  - destruct (formatNumber_twice s m e Hc) as (s' & m' & e' & H1 & H2 & Hc').
    rewrite H1 in *. rewrite H2.
    apply canonical_spec in Hc' as (_ & Hm' & Hnorm).
    destruct (Z.ltb_spec 0 m') as [Hpos | Hzero].
    + now rewrite andb_true_r.
    + assert (m' = 0) as -> by lia.
      destruct s'; [| reflexivity].
      exfalso. apply Hnz. unfold neg_zero. f_equal. lia.
Qed.

Lemma formatNumber_twice_same_bits_witness :
  is_double (literal true 45678 3) = true
  /\ formatNumber (literal true 45678 3) <> neg_zero
  /\ formatNumber (formatNumber (literal true 45678 3))
     = formatNumber (literal true 45678 3).
Proof.
  assert (formatNumber (literal true 45678 3) <> neg_zero) as Hnz
    by (vm_compute; discriminate).
  split; [reflexivity |]. split; [exact Hnz |].
  apply formatNumber_twice_same_bits; [reflexivity | exact Hnz].
Defined.

(** The exception: -0.001 is rounded to [-0], and [-0] to [+0]. *)
Example formatNumber_negative_zero :
  formatNumber (literal true 1 3) = neg_zero /\ formatNumber neg_zero = zero.
Proof. split; reflexivity. Qed.

End FormatNumberProperties.

(** ** The poll round, step by step *)

Section PollRound.
Context (toLocaleTimeString : N → string).

Ltac run :=
  cbv [mbind mret mthrow M_bind M_ret M_throw result_bind result_ret result_throw
       try_catch lift await_fetch await_json elapse newData_assign newData_read
       newData_reset updateNetworkHistory setNetworkHistory setServersData
       setLoading setLastUpdate Date_now].

(** One iteration of the loop never throws, and its effect on the state
    is [host_effect]. *)
Lemma fetchServerData_host_effect (server : Server) (o : fetch_outcome) (st : State) :
  fetchServerData_host toLocaleTimeString server o st
  = (Ok (), host_effect toLocaleTimeString server o st).
Proof.
  unfold fetchServerData_host, host_effect,
    host_wait, host_status, host_network.
  run. destruct st as [sd ld lu nh nd ck]; cbn -[insert timeout_ms N.leb].
  destruct (timeout_ms <=? delay_of o)%N eqn:Htimeout; cbn -[insert timeout_ms N.leb].
  { reflexivity. }
  destruct o as [d | d [okr jd [body |]]]; cbn -[insert timeout_ms N.leb].
  - reflexivity.
  - destruct okr; cbn -[insert]; [| reflexivity].
    destruct body; cbn -[insert];
      rewrite ?insert_insert_eq, ?N.add_assoc; reflexivity.
  - destruct okr; cbn -[insert]; rewrite ?N.add_assoc; reflexivity.
Qed.

Lemma fetchServerData_loop_effect (polls : list (Server * fetch_outcome)) (st : State) :
  fetchServerData_loop toLocaleTimeString polls st
  = (Ok (), round_effect toLocaleTimeString polls st).
Proof.
  revert st. induction polls as [| [server o] rest IH]; intros st; [reflexivity |].
  cbn [fetchServerData_loop]. cbv [mbind M_bind].
  rewrite fetchServerData_host_effect. apply IH.
Qed.

Lemma round_effect_snoc (pre : list (Server * fetch_outcome)) server o (st : State) :
  round_effect toLocaleTimeString (pre ++ [(server, o)]) st
  = host_effect toLocaleTimeString server o (round_effect toLocaleTimeString pre st).
Proof. unfold round_effect. rewrite fold_left_app. reflexivity. Qed.

Lemma round_effect_app (pre post : list (Server * fetch_outcome)) (st : State) :
  round_effect toLocaleTimeString (pre ++ post) st
  = round_effect toLocaleTimeString post (round_effect toLocaleTimeString pre st).
Proof. apply fold_left_app. Qed.

Lemma round_wait_app (pre post : list (Server * fetch_outcome)) :
  round_wait (pre ++ post) = (round_wait pre + round_wait post)%N.
Proof.
  induction pre as [| p pre IH]; simpl; [reflexivity |]. rewrite IH. lia.
Qed.

Lemma round_effect_clock (polls : list (Server * fetch_outcome)) (st : State) :
  clock (round_effect toLocaleTimeString polls st) = (clock st + round_wait polls)%N.
Proof.
  revert st. induction polls as [| [server o] rest IH]; intros st; simpl.
  - lia.
  - unfold round_effect in *. simpl. rewrite IH. simpl. lia.
Qed.

(** [newData] after the loop: the status of the last poll of each address. *)
Lemma round_effect_newData_last (pre post : list (Server * fetch_outcome))
    (server : Server) (o : fetch_outcome) (st : State) :
  ip server ∉ (ip ∘ fst) <$> post →
  newData (round_effect toLocaleTimeString (pre ++ (server, o) :: post) st) !! ip server
  = Some (host_status o).
Proof.
  revert pre. induction post as [| [server' o'] post IH] using rev_ind; intros pre Hnotin.
  - rewrite round_effect_snoc. simpl. apply lookup_insert_eq.
  - rewrite fmap_app, not_elem_of_app in Hnotin. destruct Hnotin as [Hpost Hlast].
    replace (pre ++ (server, o) :: post ++ [(server', o')])
      with ((pre ++ (server, o) :: post) ++ [(server', o')])
      by (rewrite <- app_assoc; reflexivity).
    rewrite round_effect_snoc. simpl.
    rewrite lookup_insert_ne; [apply IH; exact Hpost |].
    intros Heq. apply Hlast. simpl. rewrite Heq. apply list_elem_of_here.
Qed.

(** Every polled server has a key in [newData] after the loop, holding
    the status of a poll of its address. *)
Lemma round_effect_newData_polled (polls : list (Server * fetch_outcome)) (st : State)
    (server : Server) (o : fetch_outcome) :
  (server, o) ∈ polls →
  ∃ server' o',
    (server', o') ∈ polls ∧ ip server' = ip server
    ∧ newData (round_effect toLocaleTimeString polls st) !! ip server = Some (host_status o').
Proof.
  induction polls as [| [server1 o1] polls IH] using rev_ind; intros Hin.
  - apply elem_of_nil in Hin. contradiction.
  - rewrite round_effect_snoc. simpl.
    destruct (decide (ip server1 = ip server)) as [Heq | Hne].
    + exists server1, o1. split; [apply elem_of_app; right; apply list_elem_of_here |].
      split; [exact Heq |]. rewrite Heq. apply lookup_insert_eq.
    + apply elem_of_app in Hin as [Hin | Hin].
      * destruct (IH Hin) as (server' & o' & Hin' & Hip & Hlook).
        exists server', o'. split; [apply elem_of_app; left; exact Hin' |].
        split; [exact Hip |]. rewrite lookup_insert_ne by exact Hne. exact Hlook.
      * apply list_elem_of_singleton in Hin. injection Hin as -> ->. contradiction.
Qed.

(** The whole round, in terms of the loop. *)
Lemma fetchServerData_effect (polls : list (Server * fetch_outcome)) (st : State) :
  let st0 := snd (newData_reset st) in
  let st1 := round_effect toLocaleTimeString polls st0 in
  fetchServerData toLocaleTimeString polls st =
  (Ok (), {| serversData := newData st1; loading := false;
             lastUpdate := clock st1; networkHistory := networkHistory st1;
             newData := newData st1; clock := clock st1 |}).
Proof.
  unfold fetchServerData. cbv [mbind M_bind].
  destruct (newData_reset st) as [r st0] eqn:Hreset.
  assert (r = Ok ()) as -> by (unfold newData_reset in Hreset; congruence).
  rewrite fetchServerData_loop_effect. reflexivity.
Qed.

Lemma fetchServerData_status_last (pre post : list (Server * fetch_outcome))
    (server : Server) (o : fetch_outcome) (st : State) :
  ip server ∉ (ip ∘ fst) <$> post →
  read_status (snd (fetchServerData toLocaleTimeString (pre ++ (server, o) :: post) st)) server
  = Some (host_status o).
Proof.
  intros Hlast. rewrite fetchServerData_effect. unfold read_status. simpl.
  apply round_effect_newData_last. exact Hlast.
Qed.

(** In a round over servers with distinct addresses, the status the page
    reads for a server is the one of its own poll. *)
Lemma fetchServerData_status (polls : list (Server * fetch_outcome))
    (server : Server) (o : fetch_outcome) (st : State) :
  NoDup ((ip ∘ fst) <$> polls) →
  (server, o) ∈ polls →
  read_status (snd (fetchServerData toLocaleTimeString polls st)) server
  = Some (host_status o).
Proof.
  intros Hdistinct Hin.
  apply list_elem_of_split in Hin as (pre & post & ->).
  apply fetchServerData_status_last.
  rewrite fmap_app, fmap_cons in Hdistinct.
  apply NoDup_app in Hdistinct as (_ & _ & Hrest).
  apply NoDup_cons in Hrest as [Hnotin _]. exact Hnotin.
Qed.

(** When every request settles (the body of a response that is read
    ends), one poll round ends normally: no failure of a server makes it
    throw, and the mapping it publishes has an entry for every server of
    the sequence: an error marker, or the body a request to that address
    was answered with. *)
Lemma fetchServerData_complete (polls : list (Server * fetch_outcome)) (st : State) :
  ∃ st',
    fetchServerData toLocaleTimeString polls st = (Ok (), st')
    ∧ ∀ server o, (server, o) ∈ polls →
        ∃ status,
          read_status st' server = Some status
          ∧ (status = error_marker "Connection failed"
             ∨ status = error_marker "Failed to fetch"
             ∨ ∃ server' d response,
                 (server', Resolves d response) ∈ polls
                 ∧ ip server' = ip server
                 ∧ ok response = true
                 ∧ json response = Some status).
Proof.
  rewrite fetchServerData_effect. eexists. split; [reflexivity |].
  intros server o Hin. unfold read_status. simpl.
  destruct (round_effect_newData_polled polls (snd (newData_reset st)) server o Hin)
    as (server' & o' & Hin' & Hip & Hlook).
  exists (host_status o'). split; [exact Hlook |].
  unfold host_status.
  destruct (timeout_ms <=? delay_of o')%N; [left; reflexivity |].
  destruct o' as [d | d response]; [left; reflexivity |].
  destruct (ok response) eqn:Hok; [| right; left; reflexivity].
  destruct (json response) as [body |] eqn:Hjson; [| left; reflexivity].
  destruct body; try (left; reflexivity);
    right; right; exists server', d, response; auto.
Qed.

(** C3, as the code has it: a response with a non-success status leaves
    the marker [{ error: 'Failed to fetch' }]; a request that is aborted
    by the 5000 ms timer and a request that fails in transport both leave
    the same marker [{ error: 'Connection failed' }], as does a response
    whose body cannot be read as a JSON object. *)
Theorem fetchServerData_error_markers (polls : list (Server * fetch_outcome))
    (server : Server) (o : fetch_outcome) (st : State) :
  NoDup ((ip ∘ fst) <$> polls) →
  (server, o) ∈ polls →
  let st' := snd (fetchServerData toLocaleTimeString polls st) in
  ((timeout_ms ≤ delay_of o)%N →
     read_status st' server = Some (error_marker "Connection failed"))
  ∧ (∀ d, o = Rejects d →
     read_status st' server = Some (error_marker "Connection failed"))
  ∧ (∀ d response, o = Resolves d response → (d < timeout_ms)%N →
     ok response = true → json response = None ∨ json response = Some VNull →
     read_status st' server = Some (error_marker "Connection failed"))
  ∧ (∀ d response, o = Resolves d response → (d < timeout_ms)%N →
     ok response = false →
     read_status st' server = Some (error_marker "Failed to fetch")).
Proof.
  intros Hdistinct Hin st'. subst st'.
  rewrite (fetchServerData_status polls server o st Hdistinct Hin).
  unfold host_status. repeat split.
  - intros Hto. apply N.leb_le in Hto. rewrite Hto. reflexivity.
  - intros d ->. destruct (_ <=? _)%N; reflexivity.
  - intros d response -> Hd Hok Hbody. simpl.
    apply N.leb_gt in Hd. rewrite Hd, Hok.
    destruct Hbody as [-> | ->]; reflexivity.
  - intros d response -> Hd Hok. simpl.
    apply N.leb_gt in Hd. rewrite Hd, Hok. reflexivity.
Qed.

(** C1, as the code has it: for every successful poll of a server (the
    response arrives within 5000 ms with a success status and a JSON
    body other than [null]), the payload stored as that server's status,
    which is what the page reads, is the parsed body itself:
    [fetchServerData] does not pass it through [formatServerData]. *)
Theorem fetchServerData_stores_body (polls : list (Server * fetch_outcome))
    (server : Server) (d : N) (response : Response) (serverData : value) (st : State) :
  NoDup ((ip ∘ fst) <$> polls) →
  (server, Resolves d response) ∈ polls →
  (d < timeout_ms)%N →
  ok response = true →
  json response = Some serverData →
  serverData ≠ VNull →
  serverData ≠ VUndefined →
  read_status (snd (fetchServerData toLocaleTimeString polls st)) server
  = Some serverData.
Proof.
  intros Hdistinct Hin Hd Hok Hjson Hnull Hundef.
  rewrite (fetchServerData_status polls server _ st Hdistinct Hin).
  unfold host_status. simpl.
  apply N.leb_gt in Hd. rewrite Hd, Hok, Hjson.
  destruct serverData; try reflexivity; contradiction.
Qed.

(** C5, as the code has it: within one round the requests are issued one
    after the other, each awaited before the next server is looked at.
    The request to a server starts when all the waits before it have
    passed, and the round ends after the sum of the waits; the wait for
    one server is at most the 5000 ms of the timer unless its response
    arrived in time, in which case reading the body adds to it. *)
Theorem fetchServerData_sequential (pre post : list (Server * fetch_outcome)) (st : State) :
  let started := snd (fetchServerData_loop toLocaleTimeString pre st) in
  let ended := snd (fetchServerData toLocaleTimeString (pre ++ post) st) in
  fetchServerData_loop toLocaleTimeString (pre ++ post) st
  = fetchServerData_loop toLocaleTimeString post started
  ∧ clock started = (clock st + round_wait pre)%N
  ∧ clock ended = (clock st + round_wait pre + round_wait post)%N
  ∧ lastUpdate ended = clock ended
  ∧ ∀ o, (host_wait o ≤ timeout_ms)%N
         ∨ ∃ d response,
             o = Resolves d response ∧ (d < timeout_ms)%N
             ∧ host_wait o = (d + json_delay response)%N.
Proof.
  intros started ended. subst started ended.
  rewrite !fetchServerData_loop_effect, fetchServerData_effect. cbn [snd clock lastUpdate].
  rewrite !round_effect_clock, round_wait_app. cbn [snd newData_reset clock].
  split; [f_equal; apply round_effect_app |].
  split; [reflexivity |]. split; [lia |]. split; [reflexivity |].
  intros o. unfold host_wait.
  destruct (N.leb_spec timeout_ms (delay_of o)) as [Hto | Hin]; [left; lia |].
  destruct o as [d | d response]; simpl in *; [left; lia |].
  destruct (ok response); [right; exists d, response; auto | left; lia].
Qed.


End PollRound.

(** ** The network history *)

Section NetworkHistory.
Context (toLocaleTimeString : N → string).


Lemma slice_last_length {A : Type} (k : nat) (l : list A) :
  length (JS.slice_last k l) = min (length l) k.
Proof. unfold JS.slice_last. rewrite length_drop. lia. Qed.

Lemma slice_last_short {A : Type} (k : nat) (l : list A) :
  length l ≤ k → JS.slice_last k l = l.
Proof.
  intros Hle. unfold JS.slice_last.
  replace (length l - k) with 0 by lia. reflexivity.
Qed.

(** Trimming before an append changes nothing once the result is trimmed. *)
Lemma slice_last_snoc {A : Type} (k : nat) (l : list A) (x : A) :
  0 < k →
  JS.slice_last k (JS.slice_last k l ++ [x]) = JS.slice_last k (l ++ [x]).
Proof.
  intros Hk. unfold JS.slice_last.
  rewrite !length_app, length_drop. simpl.
  rewrite !drop_app_le by (rewrite ?length_drop; lia).
  rewrite drop_drop. do 2 f_equal. lia.
Qed.

Lemma updateNetworkHistory_effect (serverIp : string) (networkData : value) (st : State) :
  updateNetworkHistory toLocaleTimeString serverIp networkData st
  = (Ok (), {| serversData := serversData st; loading := loading st;
               lastUpdate := lastUpdate st;
               networkHistory :=
                 history_updater (toLocaleTimeString (clock st)) serverIp networkData
                   (networkHistory st);
               newData := newData st; clock := clock st |}).
Proof. reflexivity. Qed.

Lemma after_appends_snoc (st : State) (calls : list (N * string * value))
    (t : N) (serverIp : string) (networkData : value) :
  after_appends toLocaleTimeString st (calls ++ [(t, serverIp, networkData)])
  = snd (updateNetworkHistory toLocaleTimeString serverIp networkData
           (at_time t (after_appends toLocaleTimeString st calls))).
Proof. unfold after_appends. rewrite fold_left_app. reflexivity. Qed.

Lemma points_of_snoc (serverIp : string) (calls : list (N * string * value))
    (t : N) (serverIp' : string) (networkData : value) :
  points_of toLocaleTimeString serverIp (calls ++ [(t, serverIp', networkData)])
  = points_of toLocaleTimeString serverIp calls
    ++ (if String.eqb serverIp' serverIp
        then [history_entry (toLocaleTimeString t) networkData] else []).
Proof.
  unfold points_of. rewrite omap_app. f_equal. simpl.
  destruct (String.eqb serverIp' serverIp); reflexivity.
Qed.

(** C4: for every sequence of calls of [updateNetworkHistory], starting
    from the empty history, the history stored for a server never holds
    more than 30 entries, and it is exactly the most recent
    [min n 30] of the [n] points appended for that server, in arrival
    order (the oldest are dropped first). *)
Theorem updateNetworkHistory_keeps_last_30 (now : N)
    (calls : list (N * string * value)) (serverIp : string) :
  let st := after_appends toLocaleTimeString (initial_state now) calls in
  let points := points_of toLocaleTimeString serverIp calls in
  read_history st serverIp = drop (length points - 30) points
  ∧ length (read_history st serverIp) = min (length points) 30
  ∧ length (read_history st serverIp) ≤ 30.
Proof.
  intros st points.
  assert (read_history st serverIp = JS.slice_last 30 points) as Hread.
  { subst st points.
    induction calls as [| [[t serverIp'] networkData] calls IH] using rev_ind.
    - reflexivity.
    - rewrite after_appends_snoc, points_of_snoc, updateNetworkHistory_effect.
      unfold read_history in *. cbn [snd networkHistory at_time clock].
      unfold history_updater.
      destruct (String.eqb_spec serverIp' serverIp) as [-> | Hne].
      + rewrite lookup_insert_eq. cbn [default].
        rewrite IH. apply slice_last_snoc. lia.
      + rewrite lookup_insert_ne by exact Hne. rewrite app_nil_r. exact IH. }
  rewrite Hread. split; [reflexivity |].
  rewrite slice_last_length. lia.
Qed.

Lemma cleanup_updater_lookup (prev : gmap string (list NetworkHistoryEntry))
    (serverIp : string) :
  cleanup_updater prev !! serverIp
  = (λ history : list NetworkHistoryEntry,
       if 30 <? length history then JS.slice_last 30 history else history)
    <$> prev !! serverIp.
Proof. unfold cleanup_updater. apply lookup_fmap. Qed.

(** C9: for every state of the history mapping, [cleanupNetworkHistory]
    is idempotent; it leaves a history of 30 entries or fewer as it is,
    and trims a longer one to its 30 most recent entries. *)
Theorem cleanupNetworkHistory_idempotent (st : State) :
  let cleaned := λ st, snd (cleanupNetworkHistory st) in
  cleaned (cleaned st) = cleaned st
  ∧ fst (cleanupNetworkHistory st) = Ok ()
  ∧ (∀ serverIp history,
       networkHistory st !! serverIp = Some history →
       length history ≤ 30 →
       networkHistory (cleaned st) !! serverIp = Some history)
  ∧ (∀ serverIp history,
       networkHistory st !! serverIp = Some history →
       30 < length history →
       networkHistory (cleaned st) !! serverIp
       = Some (drop (length history - 30) history)
       ∧ length (drop (length history - 30) history) = 30)
  ∧ (∀ serverIp,
       networkHistory st !! serverIp = None →
       networkHistory (cleaned st) !! serverIp = None).
Proof.
  intros cleaned. subst cleaned. cbn [snd fst cleanupNetworkHistory setNetworkHistory
    networkHistory serversData loading lastUpdate newData clock].
  split; [| split; [reflexivity |]].
  - f_equal. apply map_eq. intros serverIp.
    rewrite !cleanup_updater_lookup.
    destruct (networkHistory st !! serverIp) as [history |]; [| reflexivity].
    cbn [fmap option_fmap option_map]. f_equal.
    destruct (Nat.ltb_spec 30 (length history)) as [Hlong | Hshort].
    + rewrite slice_last_length.
      destruct (Nat.ltb_spec 30 (min (length history) 30)); [lia | reflexivity].
    + destruct (Nat.ltb_spec 30 (length history)); [lia | reflexivity].
  - split; [| split; [intros serverIp history Hlook Hlen; split |]].
    + intros serverIp history Hlook Hlen.
      rewrite cleanup_updater_lookup, Hlook. cbn [fmap option_fmap option_map].
      destruct (Nat.ltb_spec 30 (length history)); [lia | reflexivity].
    + rewrite cleanup_updater_lookup, Hlook. cbn [fmap option_fmap option_map].
      destruct (Nat.ltb_spec 30 (length history)); [reflexivity | lia].
    + rewrite length_drop. lia.
    + intros serverIp Hlook. rewrite cleanup_updater_lookup, Hlook. reflexivity.
Qed.

End NetworkHistory.

(** ** [formatServerData] and the temperature object *)

Section FormatServerDataProperties.
Context (isX86TemperatureInfo : value → result bool).


Lemma result_bind_Ok {A B : Type} (m : result A) (f : A → result B) (b : B) :
  m ≫= f = Ok b → ∃ a, m = Ok a ∧ f a = Ok b.
Proof. destruct m as [a | e]; [eauto | discriminate]. Qed.

Ltac bind_inv H :=
  let a := fresh "a" in
  let Ha := fresh "Ha" in
  apply result_bind_Ok in H as (a & Ha & H).

Lemma formatTemperature_Ok (temp out : value) :
  formatTemperature temp = Ok out →
  temp = VStr "N/A" ∨ ∃ n, temp = VNum n.
Proof.
  destruct temp as [| | b | n | s | elems | props]; try discriminate.
  - right. eauto.
  - simpl. destruct (String.eqb_spec s "N/A") as [-> | _]; [left; reflexivity | discriminate].
Qed.

(** A value [formatTemperature] is applied to when [formatServerData]
    returns: each field of the variant the guard selects. *)
Lemma formatServerData_Ok_temperature (data out : value) (x86 : bool) (field : string) :
  formatServerData isX86TemperatureInfo data = Ok out →
  JS.get_path data ["temperature"; field] ≠ Throw TypeError →
  JS.get data "temperature" ≫= isX86TemperatureInfo = Ok x86 →
  field ∈ (if x86 then ["cpu"; "gpu"; "motherboard"] else ["cpu"; "rp1"; "ssd"]) →
  ∃ temp formatted,
    JS.get_path data ["temperature"; field] = Ok temp
    ∧ formatTemperature temp = Ok formatted.
Proof.
  intros Hout Hpath Hguard Hfield.
  assert (∃ props, data = VObj props) as [props ->].
  { destruct data; try (exfalso; apply Hpath; reflexivity). eauto. }
  unfold formatServerData in Hout.
  do 17 bind_inv Hout.
  bind_inv Hout. rewrite Hguard in Ha16. injection Ha16 as <-.
  bind_inv Hout. clear Hout.
  destruct x86; do 3 bind_inv Ha16;
    apply result_bind_Ok in Ha17 as (t1 & Hp1 & Hf1);
    apply result_bind_Ok in Ha18 as (t2 & Hp2 & Hf2);
    apply result_bind_Ok in Ha19 as (t3 & Hp3 & Hf3);
    repeat (apply elem_of_cons in Hfield as [-> | Hfield]; [eauto |]);
    apply elem_of_nil in Hfield; contradiction.
Qed.

Lemma formatNumber_field_Ok (num out : value) :
  formatNumber_field num = Ok out →
  ∃ n, num = VNum n ∧ out = VNum (formatNumber n).
Proof.
  destruct num as [| | b | n | s | elems | props]; try discriminate.
  intros [= <-]. eauto.
Qed.

(** One step of [formatServerData]: the value bound next, with what
    [formatNumber] was applied to when the step rounds a leaf. *)
Ltac step H :=
  let a := fresh "a" in
  let Ha := fresh "Ha" in
  let v := fresh "v" in
  let Hv := fresh "Hv" in
  let n := fresh "n" in
  apply result_bind_Ok in H as (a & Ha & H);
  try (apply result_bind_Ok in Ha as (v & Hv & Ha);
       apply formatNumber_field_Ok in Ha as (n & -> & ->)).

(** X1: when [formatServerData] returns, its result holds the usage,
    used, percentage, download, upload, ping and fan leaves of the
    payload rounded by [formatNumber], and the cores, totals, error
    rates and uptime leaves as they were. *)
Theorem formatServerData_rounds_and_copies (props : list (string * value)) (out : value) :
  formatServerData isX86TemperatureInfo (VObj props) = Ok out →
  (∀ path, path ∈ rounded_paths →
     ∃ n, JS.get_path (VObj props) path = Ok (VNum n)
          ∧ JS.get_path out path = Ok (VNum (formatNumber n)))
  ∧ (∀ path, path ∈ copied_paths →
     ∃ v, JS.get_path (VObj props) path = Ok v ∧ JS.get_path out path = Ok v).
Proof.
  intros Hout. unfold formatServerData in Hout.
  do 23 step Hout. injection Hout as <-.
  split; intros path Hpath;
    repeat (apply elem_of_cons in Hpath as [-> | Hpath]; [eauto |]);
    apply elem_of_nil in Hpath; contradiction.
Qed.

Lemma bind_throws_TypeError_only {A B : Type} (m : result A) (f : A → result B) :
  throws_TypeError_only m → (∀ a, throws_TypeError_only (f a)) →
  throws_TypeError_only (m ≫= f).
Proof.
  intros Hm Hf e. destruct m as [a | e']; cbn.
  - apply Hf.
  - intros [= <-]. apply Hm. reflexivity.
Qed.

Lemma get_throws_TypeError_only (v : value) (k : string) :
  throws_TypeError_only (JS.get v k).
Proof.
  intros e. unfold JS.get, mthrow, mret, result_throw, result_ret.
  destruct v; congruence.
Qed.

Lemma get_path_throws_TypeError_only (v : value) (ks : list string) :
  throws_TypeError_only (JS.get_path v ks).
Proof.
  revert v. induction ks as [| k ks IH]; intros v; cbn [JS.get_path].
  - intros e. discriminate.
  - apply bind_throws_TypeError_only; [apply get_throws_TypeError_only | exact IH].
Qed.

Lemma formatNumber_field_throws_TypeError_only (v : value) :
  throws_TypeError_only (formatNumber_field v).
Proof.
  intros e. unfold formatNumber_field, mthrow, mret, result_throw, result_ret.
  destruct v; congruence.
Qed.

Lemma formatTemperature_throws_TypeError_only (v : value) :
  throws_TypeError_only (formatTemperature v).
Proof.
  intros e. unfold formatTemperature, mthrow, mret, result_throw, result_ret.
  destruct v as [| | b | n | s | elems | props]; try congruence.
  destruct (String.eqb s "N/A"); congruence.
Qed.

Lemma mapM_throws_TypeError_only {A B : Type} (f : A → result B) (l : list A) :
  (∀ x, throws_TypeError_only (f x)) → throws_TypeError_only (mapM f l).
Proof.
  intros Hf. induction l as [| x l IH]; cbn [mapM].
  - intros e. discriminate.
  - apply bind_throws_TypeError_only; [apply Hf |]. intros y.
    apply bind_throws_TypeError_only; [exact IH |]. intros k e. discriminate.
Qed.

Ltac only_TypeError :=
  repeat first
    [ assumption
    | apply get_path_throws_TypeError_only
    | apply get_throws_TypeError_only
    | apply formatNumber_field_throws_TypeError_only
    | apply formatTemperature_throws_TypeError_only
    | apply bind_throws_TypeError_only; [| intros ?]
    | (intros ?; discriminate) ].

Lemma format_process_throws_TypeError_only (process : value) :
  throws_TypeError_only (format_process process).
Proof. unfold format_process. cbv zeta. only_TypeError. Qed.

Lemma formatServerData_throws_TypeError_only (data : value) :
  throws_TypeError_only (JS.get data "temperature" ≫= isX86TemperatureInfo) →
  throws_TypeError_only (formatServerData isX86TemperatureInfo data).
Proof.
  intros Hguard. unfold formatServerData.
  assert (∀ ps : value,
            throws_TypeError_only
              (match ps with
               | VArr elems => mapM format_process elems
               | _ => mthrow TypeError
               end)) as Hprocesses.
  { intros ps e. destruct ps; try (intros [= <-]; reflexivity).
    apply mapM_throws_TypeError_only, format_process_throws_TypeError_only. }
  destruct data; try (intros e; discriminate);
    only_TypeError; try apply Hprocesses;
    match goal with x86 : bool |- _ => destruct x86 end; only_TypeError.
Qed.

(** C6, as the code has it: [formatServerData] selects the variant with
    [isX86TemperatureInfo] and applies [formatTemperature] to the three
    fields of that variant.  [formatTemperature] returns the string
    ['N/A'] unchanged and rounds a number; a field that is absent or
    [null] makes [formatServerData] throw a [TypeError] instead of being
    propagated as missing. *)
Theorem formatServerData_absent_sensor_throws (data : value) (x86 : bool)
    (field : string) (temp : value) :
  JS.get data "temperature" ≫= isX86TemperatureInfo = Ok x86 →
  field ∈ (if x86 then ["cpu"; "gpu"; "motherboard"] else ["cpu"; "rp1"; "ssd"]) →
  JS.get_path data ["temperature"; field] = Ok temp →
  temp = VUndefined ∨ temp = VNull →
  formatServerData isX86TemperatureInfo data = Throw TypeError
  ∧ formatTemperature (VStr "N/A") = Ok (VStr "N/A")
  ∧ ∀ n, formatTemperature (VNum n) = Ok (VNum (formatNumber n)).
Proof.
  intros Hguard Hfield Hpath Habsent. split; [| split; reflexivity].
  destruct (formatServerData isX86TemperatureInfo data) as [out | e] eqn:Hout.
  - exfalso.
    destruct (formatServerData_Ok_temperature data out x86 field Hout) as
      (temp' & formatted & Hpath' & Hformat); try assumption.
    { rewrite Hpath. discriminate. }
    rewrite Hpath in Hpath'. injection Hpath' as <-.
    destruct Habsent as [-> | ->]; discriminate.
  - f_equal. apply (formatServerData_throws_TypeError_only data); [| exact Hout].
    rewrite Hguard. intros e'. discriminate.
Qed.

End FormatServerDataProperties.

(** ** The display helpers and readings of zero *)

Section DisplayProperties.
Context (Number_toString : JSNumber.number → string).


(** C8, as the code has it: a reading of exactly 0 is handled like a
    missing one.  A temperature of 0 is skipped like an absent field (the
    card shows the next sensor, or ['N/A'] when none is left), a fan
    whose three speeds are 0 is not shown, like no fan at all, and the
    history point of a payload whose download and upload are 0 is the
    point of a payload without a network field. *)
Theorem zero_reading_is_handled_as_missing :
  (∀ rp1 ssd type,
     getTemperatureDisplay Number_toString
       (Some {| temp_cpu := Some JSNumber.zero; temp_rp1 := rp1; temp_ssd := ssd |}) type
     = getTemperatureDisplay Number_toString
       (Some {| temp_cpu := None; temp_rp1 := rp1; temp_ssd := ssd |}) type)
  ∧ (∀ cpu ssd type,
     getTemperatureDisplay Number_toString
       (Some {| temp_cpu := cpu; temp_rp1 := Some JSNumber.zero; temp_ssd := ssd |}) type
     = getTemperatureDisplay Number_toString
       (Some {| temp_cpu := cpu; temp_rp1 := None; temp_ssd := ssd |}) type)
  ∧ (∀ cpu rp1 type,
     getTemperatureDisplay Number_toString
       (Some {| temp_cpu := cpu; temp_rp1 := rp1; temp_ssd := Some JSNumber.zero |}) type
     = getTemperatureDisplay Number_toString
       (Some {| temp_cpu := cpu; temp_rp1 := rp1; temp_ssd := None |}) type)
  ∧ (∀ type,
     getTemperatureDisplay Number_toString
       (Some {| temp_cpu := Some JSNumber.zero; temp_rp1 := None; temp_ssd := None |}) type
     = Some "N/A")
  ∧ getFanSpeed Number_toString
      (Some {| fan_cpu := JSNumber.zero; fan_case1 := JSNumber.zero;
               fan_case2 := JSNumber.zero |})
    = getFanSpeed Number_toString None
  ∧ (∀ time rest,
     history_entry time
       (VObj (("download", VNum JSNumber.zero) :: ("upload", VNum JSNumber.zero) :: rest))
     = history_entry time VUndefined).
Proof.
  repeat split; intros; unfold getTemperatureDisplay;
    try destruct (String.eqb _ "n95"); reflexivity.
Qed.

End DisplayProperties.

(** ** Concrete rounds and payloads *)

(** C1 fails as stated: a server answers with [cpu.usage = 45.678]; the
    status the page reads holds 45.678, not the 45.68 that
    [formatNumber] makes of it. *)
Lemma stored_payload_is_not_rounded :
  let st' :=
    snd (fetchServerData sample_toLocaleTimeString
           [(RuthServer, Resolves 10 (answer (sample_payload x86_temperature)))]
           (initial_state 0)) in
  read_status st' RuthServer = Some (sample_payload x86_temperature)
  ∧ JS.get_path (sample_payload x86_temperature) ["cpu"; "usage"] = Ok (num 45678 3)
  ∧ formatNumber_field (num 45678 3) = Ok (num 4568 2)
  ∧ num 45678 3 ≠ num 4568 2.
Proof. vm_compute. repeat split. discriminate. Qed.

Lemma fetchServerData_stores_body_witness :
  let polls :=
    zip servers
      [Resolves 10 (answer (sample_payload x86_temperature)); Rejects 3;
       Resolves 9000 (answer (sample_payload arm_temperature));
       Resolves 20 (answer (sample_payload arm_temperature))] in
  NoDup ((ip ∘ fst) <$> polls)
  ∧ read_status
      (snd (fetchServerData sample_toLocaleTimeString polls (initial_state 0)))
      RuthServer
    = Some (sample_payload x86_temperature).
Proof.
  intros polls.
  assert (NoDup ((ip ∘ fst) <$> polls)) as Hdistinct
    by (apply (bool_decide_unpack _); vm_compute; exact I).
  split; [exact Hdistinct |].
  apply (fetchServerData_stores_body sample_toLocaleTimeString polls RuthServer
           10%N (answer (sample_payload x86_temperature)));
    [exact Hdistinct | apply list_elem_of_here | reflexivity | reflexivity
    | reflexivity | discriminate | discriminate].
Defined.

(** C3 fails as stated: a request aborted by the timer (the response
    would have come after 9000 ms) and a refused connection leave the
    same marker, so the two kinds of failure cannot be told apart. *)
Lemma timeout_and_refusal_leave_the_same_marker :
  read_status
    (snd (fetchServerData sample_toLocaleTimeString
            [(RuthServer, Resolves 9000 (answer (sample_payload x86_temperature)))]
            (initial_state 0)))
    RuthServer
  = Some (error_marker "Connection failed")
  ∧ read_status
      (snd (fetchServerData sample_toLocaleTimeString
              [(RuthServer, Rejects 3)] (initial_state 0)))
      RuthServer
    = Some (error_marker "Connection failed").
Proof. vm_compute. split; reflexivity. Qed.

Lemma fetchServerData_error_markers_witness :
  let polls :=
    zip servers
      [Resolves 10 {| ok := false; json_delay := 0; json := None |}; Rejects 3;
       Resolves 9000 (answer (sample_payload arm_temperature));
       Resolves 20 (answer (sample_payload arm_temperature))] in
  NoDup ((ip ∘ fst) <$> polls)
  ∧ read_status
      (snd (fetchServerData sample_toLocaleTimeString polls (initial_state 0)))
      RuthServer
    = Some (error_marker "Failed to fetch").
Proof.
  intros polls.
  assert (NoDup ((ip ∘ fst) <$> polls)) as Hdistinct
    by (apply (bool_decide_unpack _); vm_compute; exact I).
  split; [exact Hdistinct |].
  pose proof (fetchServerData_error_markers sample_toLocaleTimeString polls
    RuthServer (Resolves 10 {| ok := false; json_delay := 0; json := None |})
    (initial_state 0) Hdistinct ltac:(apply list_elem_of_here))
    as (_ & _ & _ & Hmarker).
  apply (Hmarker 10%N {| ok := false; json_delay := 0; json := None |});
    reflexivity.
Defined.

(** C5 fails as stated: the first server times out, the second answers
    after 10 ms; the round ends after 5000 + 10 + 5 ms, the sum of the
    waits, not after the longer of the two. *)
Lemma round_takes_the_sum_of_the_waits :
  let st' :=
    snd (fetchServerData sample_toLocaleTimeString
           [(RuthServer, Resolves 9000 (answer (sample_payload x86_temperature)));
            (RuthPiMaster, Resolves 10 (answer (sample_payload arm_temperature)))]
           (initial_state 0)) in
  read_status st' RuthServer = Some (error_marker "Connection failed")
  ∧ read_status st' RuthPiMaster = Some (sample_payload arm_temperature)
  ∧ lastUpdate st' = 5015%N
  ∧ (N.max timeout_ms (10 + 5) < lastUpdate st')%N.
Proof. vm_compute. repeat split. Qed.

(** C6 fails as stated: a temperature object of a third shape, and the
    arm object with [ssd: null], make [formatServerData] throw, whatever
    variant the guard selects. *)
Lemma formatServerData_unknown_shape_throws :
  let unknown := sample_payload (VObj [("cpu", num 40 0); ("npu", num 41 0)]) in
  let no_ssd :=
    sample_payload (VObj [("cpu", num 40005 3); ("rp1", num 38 0); ("ssd", VNull)]) in
  formatServerData isX86TemperatureInfo_by_presence unknown = Throw TypeError
  ∧ formatServerData (λ _, Ok true) unknown = Throw TypeError
  ∧ formatServerData (λ _, Ok false) unknown = Throw TypeError
  ∧ formatServerData isX86TemperatureInfo_by_presence no_ssd = Throw TypeError.
Proof. vm_compute. repeat split. Qed.

Lemma formatServerData_absent_sensor_throws_witness :
  formatServerData isX86TemperatureInfo_by_presence
    (sample_payload (VObj [("cpu", num 40 0); ("npu", num 41 0)]))
  = Throw TypeError.
Proof.
  refine (proj1 (formatServerData_absent_sensor_throws
    isX86TemperatureInfo_by_presence
    (sample_payload (VObj [("cpu", num 40 0); ("npu", num 41 0)]))
    false "rp1" VUndefined _ _ _ _)).
  - reflexivity.
  - apply elem_of_cons. right. apply list_elem_of_here.
  - reflexivity.
  - left. reflexivity.
Defined.


(** C8 fails as stated: a CPU temperature of 0 is shown as ['N/A'], three
    fan speeds of 0 give no fan at all, and a download and upload of 0
    give the history point of a payload without network data. *)
Lemma zero_temperature_is_shown_as_missing :
  getTemperatureDisplay sample_Number_toString
    (Some {| temp_cpu := Some JSNumber.zero; temp_rp1 := None; temp_ssd := None |})
    (type RuthPiMaster)
  = Some "N/A"
  ∧ getFanSpeed sample_Number_toString
      (Some {| fan_cpu := JSNumber.zero; fan_case1 := JSNumber.zero;
               fan_case2 := JSNumber.zero |})
    = None
  ∧ history_entry "12:00:00"
      (VObj [("download", VNum JSNumber.zero); ("upload", VNum JSNumber.zero)])
    = history_entry "12:00:00" VUndefined.
Proof. repeat split. Qed.

(** After 31 samples appended for one server, its history holds 30 of
    them: the first is gone and the last is there. *)
Example thirty_one_samples :
  let calls := (λ i : nat, (N.of_nat i, ip RuthServer, VObj [])) <$> seq 1 31 in
  let history :=
    read_history (after_appends sample_toLocaleTimeString (initial_state 0) calls)
      (ip RuthServer) in
  length history = 30
  ∧ time <$> head history = Some "2"
  ∧ time <$> last history = Some "31".
Proof. vm_compute. repeat split. Qed.

(** [formatNumber] rounds the exact value of the double, a tie away
    from zero: 45.678 gives 45.68, 0.125 gives 0.13 and -0.125 gives
    -0.13; 0.005 and 40.005 are doubles just above the decimal and give
    0.01 and 40.01, while 1.005 is a double just below it and gives 1. *)
Example formatNumber_boundaries :
  formatNumber (JSNumber.literal false 45678 3) = JSNumber.literal false 4568 2
  ∧ formatNumber (JSNumber.literal false 125 3) = JSNumber.literal false 13 2
  ∧ formatNumber (JSNumber.literal true 125 3) = JSNumber.literal true 13 2
  ∧ formatNumber (JSNumber.literal false 5 3) = JSNumber.literal false 1 2
  ∧ formatNumber (JSNumber.literal false 40005 3) = JSNumber.literal false 4001 2
  ∧ formatNumber (JSNumber.literal false 1005 3) = JSNumber.literal false 1 0.
Proof. vm_compute. repeat split. Qed.

(** In a round over two servers where the first answers with a
    non-success status and the second refuses the connection, the round
    ends normally and the mapping has both entries, one with each
    marker. *)
Example two_failing_servers :
  let round :=
    fetchServerData sample_toLocaleTimeString
      [(RuthServer, Resolves 40 {| ok := false; json_delay := 0; json := None |});
       (RuthPiMaster, Rejects 3)]
      (initial_state 0) in
  fst round = Ok ()
  ∧ read_status (snd round) RuthServer = Some (error_marker "Failed to fetch")
  ∧ read_status (snd round) RuthPiMaster = Some (error_marker "Connection failed")
  ∧ size (serversData (snd round)) = 2.
Proof. vm_compute. repeat split. Qed.

Lemma formatServerData_rounds_and_copies_witness :
  formatServerData isX86TemperatureInfo_by_presence (sample_payload x86_temperature)
  = Ok sample_formatted
  ∧ ∃ n,
      JS.get_path (sample_payload x86_temperature) ["cpu"; "usage"] = Ok (VNum n)
      ∧ JS.get_path sample_formatted ["cpu"; "usage"] = Ok (VNum (formatNumber n)).
Proof.
  assert (formatServerData isX86TemperatureInfo_by_presence
            (sample_payload x86_temperature) = Ok sample_formatted) as Hout
    by reflexivity.
  split; [exact Hout |].
  apply (proj1 (formatServerData_rounds_and_copies
                  isX86TemperatureInfo_by_presence _ sample_formatted Hout)).
  apply list_elem_of_here.
Defined.

(** ** [formatNumber]: accuracy, fixed points and order *)

Section FormatNumberOrder.
Import JSNumber RoundingFacts.
Local Open Scope Z_scope.

(** A double of a higher binade is larger. *)
Lemma units_lt_of_exponent (m e m' e' : Z) :
  canonical m e = true -> canonical m' e' = true ->
  e < e' -> units m e < units m' e'.
Proof.
  intros Hc Hc' Hlt.
  apply canonical_spec in Hc as (He & Hm & _).
  apply canonical_spec in Hc' as (He' & Hm' & Hnorm').
  unfold units. replace (e' - emin) with ((e' - e - 1) + 1 + (e - emin)) by lia.
  rewrite !Z.pow_add_r by lia. change (2 ^ 1) with 2.
  pose proof (pow2_pos (e' - e - 1) ltac:(lia)).
  pose proof (pow2_pos (e - emin) ltac:(lia)).
  assert (2 ^ 52 <= m') as Hm52 by lia.
  set (Q := 2 ^ (e - emin)) in *. set (R := 2 ^ (e' - e - 1)) in *.
  assert (m * Q < 2 ^ 53 * Q) as H1 by (apply Z.mul_lt_mono_pos_r; lia).
  assert (2 ^ 53 * Q <= m' * 2 * Q) as H2 by (apply Z.mul_le_mono_nonneg_r; lia).
  assert (m' * 2 * Q * 1 <= m' * 2 * Q * R) as H3
    by (apply Z.mul_le_mono_nonneg_l; [apply Z.mul_nonneg_nonneg |]; lia).
  lia.
Qed.

(** A magnitude has one encoding. *)
Lemma canonical_unique (m e m' e' : Z) :
  canonical m e = true -> canonical m' e' = true ->
  units m e = units m' e' -> m = m' /\ e = e'.
Proof.
  intros Hc Hc' Heq.
  destruct (Z.lt_trichotomy e e') as [Hlt | [-> | Hgt]].
  - pose proof (units_lt_of_exponent m e m' e' Hc Hc' Hlt). lia.
  - split; [| reflexivity]. unfold units in Heq.
    apply canonical_spec in Hc as (He & _).
    pose proof (pow2_pos (e' - emin) ltac:(lia)). nia.
  - pose proof (units_lt_of_exponent m' e' m e Hc' Hc Hgt). lia.
Qed.

(** Below [10^21], [formatNumber] is [Number] of the hundredths. *)
Lemma formatNumber_small (s : bool) (m e : Z) :
  canonical m e = true ->
  units m e < 10 ^ 21 * one ->
  exists m' e',
    formatNumber (Finite s m e) = Finite (s && (0 <? m)) m' e'
    /\ canonical m' e' = true
    /\ units m' e' < 10 ^ 21 * one
    /\ round_binary64 false (nearest_integer (100 * units m e) one) 100
       = Finite false m' e'.
Proof.
  intros Hc Hsmall.
  destruct (hundredths_round_trip m e Hc Hsmall) as (m' & e' & Hr & Hc' & Hlt & _).
  cbv zeta in Hr. change (10 ^ 2) with 100 in Hr.
  exists m', e'. rewrite formatNumber_finite.
  destruct (Z.leb_spec (10 ^ 21 * one) (units m e)); [lia |].
  change (10 ^ 2) with 100. rewrite round_binary64_sign, Hr. auto.
Qed.

Lemma nearest_integer_nonneg (num den : Z) :
  0 <= num -> 0 < den -> 0 <= nearest_integer num den.
Proof. intros. unfold nearest_integer. apply Z.div_pos; lia. Qed.

(** X3: [formatNumber] of a finite number is a finite number with the
    same sign ([-0] becomes [+0]) that differs from it by at most
    0.01. *)
Theorem formatNumber_within_a_hundredth (s : bool) (m e : Z) :
  canonical m e = true ->
  exists m' e',
    formatNumber (Finite s m e) = Finite (s && (0 <? m)) m' e'
    /\ canonical m' e' = true
    /\ 100 * Z.abs (units m' e' - units m e) <= one.
Proof.
  intros Hc. pose proof one_pos as Hone.
  destruct (Z.leb_spec (10 ^ 21 * one) (units m e)) as [Hbig | Hsmall].
  - exists m, e. rewrite formatNumber_finite.
    destruct (Z.leb_spec (10 ^ 21 * one) (units m e)); [| lia].
    split; [reflexivity |]. split; [exact Hc |]. rewrite Z.sub_diag. simpl. lia.
  - destruct (formatNumber_small s m e Hc Hsmall) as (m' & e' & Hf & Hc' & _ & Hr).
    exists m', e'. split; [exact Hf |]. split; [exact Hc' |].
    pose proof (units_nonneg m e Hc) as HV.
    set (n := nearest_integer (100 * units m e) one) in *.
    assert (nearest_integer (100 * units m e) one = n) as Hn by reflexivity.
    apply nearest_integer_spec in Hn; [| exact Hone].
    pose proof (round_binary64_nearest false n 100 m' e' m e
      ltac:(apply nearest_integer_nonneg; lia) ltac:(lia) Hr Hc) as Hnear.
    lia.
Qed.

Lemma formatNumber_within_a_hundredth_witness :
  canonical 6428888468071383 (-47) = true
  /\ exists m' e',
       formatNumber (Finite false 6428888468071383 (-47))
       = Finite (false && (0 <? 6428888468071383)) m' e'
       /\ canonical m' e' = true
       /\ 100 * Z.abs (units m' e' - units 6428888468071383 (-47)) <= one.
Proof.
  split; [reflexivity |].
  apply formatNumber_within_a_hundredth. reflexivity.
Defined.

(** X4: a double with at most two decimals, that is one whose hundredfold
    is an integer (every integer is one: cores, totals, days), is its own
    [formatNumber], [-0] apart, which becomes [+0]. *)
Theorem formatNumber_two_decimals_fixed (s : bool) (m e : Z) :
  canonical m e = true ->
  (100 * units m e) mod one = 0 ->
  formatNumber (Finite s m e) = Finite (s && (0 <? m)) m e.
Proof.
  intros Hc Hmod. pose proof one_pos as Hone.
  destruct (Z.leb_spec (10 ^ 21 * one) (units m e)) as [Hbig | Hsmall].
  - rewrite formatNumber_finite.
    destruct (Z.leb_spec (10 ^ 21 * one) (units m e)); [reflexivity | lia].
  - destruct (formatNumber_small s m e Hc Hsmall) as (m' & e' & Hf & Hc' & _ & Hr).
    rewrite Hf.
    pose proof (units_nonneg m e Hc) as HV.
    set (n := nearest_integer (100 * units m e) one) in *.
    assert (nearest_integer (100 * units m e) one = n) as Hn by reflexivity.
    apply nearest_integer_spec in Hn; [| exact Hone].
    apply Z.mod_divide in Hmod; [| lia]. destruct Hmod as [k Hk].
    assert (0 <= n) as Hn0 by (apply nearest_integer_nonneg; lia).
    assert (n = k) as Hnk by nia.
    pose proof (round_binary64_nearest false n 100 m' e' m e
      Hn0 ltac:(lia) Hr Hc) as Hnear.
    assert (units m' e' = units m e) as Hsame by lia.
    destruct (canonical_unique m' e' m e Hc' Hc Hsame) as [-> ->]. reflexivity.
Qed.

Lemma formatNumber_two_decimals_fixed_witness :
  canonical (2 ^ 52) (-50) = true
  /\ (100 * units (2 ^ 52) (-50)) mod one = 0
  /\ formatNumber (Finite false (2 ^ 52) (-50))
     = Finite (false && (0 <? 2 ^ 52)) (2 ^ 52) (-50).
Proof.
  split; [reflexivity |]. split; [reflexivity |].
  apply formatNumber_two_decimals_fixed; reflexivity.
Defined.

(** Rounding keeps the order of magnitudes. *)
Lemma formatNumber_magnitude_monotone
    (s1 s2 s1' s2' : bool) (m1 e1 m2 e2 m1' e1' m2' e2' : Z) :
  canonical m1 e1 = true -> canonical m2 e2 = true ->
  units m1 e1 <= units m2 e2 ->
  formatNumber (Finite s1 m1 e1) = Finite s1' m1' e1' ->
  formatNumber (Finite s2 m2 e2) = Finite s2' m2' e2' ->
  units m1' e1' <= units m2' e2'.
Proof.
  intros Hc1 Hc2 Hle Hf1 Hf2. pose proof one_pos as Hone.
  pose proof (units_nonneg m1 e1 Hc1) as HV1.
  destruct (Z.leb_spec (10 ^ 21 * one) (units m2 e2)) as [Hbig2 | Hsmall2].
  - (* the larger one comes back unchanged *)
    rewrite formatNumber_finite in Hf2.
    destruct (Z.leb_spec (10 ^ 21 * one) (units m2 e2)); [| lia].
    injection Hf2 as _ <- <-.
    destruct (Z.leb_spec (10 ^ 21 * one) (units m1 e1)) as [Hbig1 | Hsmall1].
    + rewrite formatNumber_finite in Hf1.
      destruct (Z.leb_spec (10 ^ 21 * one) (units m1 e1)); [| lia].
      injection Hf1 as _ <- <-. exact Hle.
    + destruct (formatNumber_small s1 m1 e1 Hc1 Hsmall1) as (ma & ea & Hfa & _ & Hlt & _).
      rewrite Hfa in Hf1. injection Hf1 as _ <- <-. lia.
  - assert (units m1 e1 < 10 ^ 21 * one) as Hsmall1 by lia.
    destruct (formatNumber_small s1 m1 e1 Hc1 Hsmall1) as (ma & ea & Hfa & Hca & _ & Hra).
    destruct (formatNumber_small s2 m2 e2 Hc2 Hsmall2) as (mb & eb & Hfb & Hcb & _ & Hrb).
    rewrite Hfa in Hf1. injection Hf1 as _ <- <-.
    rewrite Hfb in Hf2. injection Hf2 as _ <- <-.
    set (n1 := nearest_integer (100 * units m1 e1) one) in *.
    set (n2 := nearest_integer (100 * units m2 e2) one) in *.
    assert (nearest_integer (100 * units m1 e1) one = n1) as Hn1 by reflexivity.
    assert (nearest_integer (100 * units m2 e2) one = n2) as Hn2 by reflexivity.
    apply nearest_integer_spec in Hn1; [| exact Hone].
    apply nearest_integer_spec in Hn2; [| exact Hone].
    assert (0 <= n1) as Hn10 by (apply nearest_integer_nonneg; lia).
    assert (0 <= n2) as Hn20 by (apply nearest_integer_nonneg; lia).
    assert (n1 <= n2) as Hn by nia.
    destruct (Z.eq_dec n1 n2) as [Heq | Hne].
    + rewrite Heq, Hrb in Hra. injection Hra as <- <-. lia.
    + (* two nearest doubles of increasing targets cannot cross *)
      pose proof (round_binary64_nearest false n1 100 ma ea mb eb
        Hn10 ltac:(lia) Hra Hcb) as Hnear1.
      pose proof (round_binary64_nearest false n2 100 mb eb ma ea
        Hn20 ltac:(lia) Hrb Hca) as Hnear2.
      assert (n1 * one < n2 * one) as Hlt by nia.
      lia.
Qed.

Lemma formatNumber_zero (s : bool) (m e : Z) :
  canonical m e = true -> units m e = 0 ->
  formatNumber (Finite s m e) = Finite false 0 e.
Proof.
  intros Hc Hz.
  assert (m = 0) as ->.
  { apply canonical_spec in Hc as (He & _). unfold units in Hz.
    pose proof (pow2_pos (e - emin) ltac:(lia)). nia. }
  rewrite (formatNumber_two_decimals_fixed s 0 e Hc).
  - rewrite andb_false_r. reflexivity.
  - rewrite Hz. reflexivity.
Qed.

(** The value of the result, from the sign of the argument. *)
Lemma formatNumber_signed (s : bool) (m e : Z) :
  canonical m e = true ->
  exists s' m' e',
    formatNumber (Finite s m e) = Finite s' m' e'
    /\ 0 <= units m' e'
    /\ (units m e = 0 -> units m' e' = 0)
    /\ JSOrder.signed_units s' m' e'
       = if s then - units m' e' else units m' e'.
Proof.
  intros Hc.
  destruct (formatNumber_within_a_hundredth s m e Hc) as (m' & e' & Hf & Hc' & _).
  exists (s && (0 <? m))%bool, m', e'. split; [exact Hf |].
  split; [apply units_nonneg; exact Hc' |].
  assert (units m e = 0 -> units m' e' = 0) as Hzero.
  { intros Hz. rewrite (formatNumber_zero s m e Hc Hz) in Hf.
    injection Hf as _ <- <-. apply canonical_spec in Hc as (He & _).
    unfold units. lia. }
  split; [exact Hzero |].
  unfold JSOrder.signed_units.
  destruct s; [| reflexivity]. cbn [andb].
  destruct (Z.ltb_spec 0 m) as [Hpos | Hnonpos]; [reflexivity |].
  rewrite Hzero; [reflexivity |].
  apply canonical_spec in Hc as (_ & Hm & _). unfold units.
  replace m with 0 by lia. lia.
Qed.

(** X5: [formatNumber] keeps the order of numbers: when [x <= y], also
    [formatNumber x <= formatNumber y]. *)
Theorem formatNumber_monotone (x y : number) :
  is_double x = true -> is_double y = true ->
  JSOrder.le x y = true ->
  JSOrder.le (formatNumber x) (formatNumber y) = true.
Proof.
  destruct x as [| sx | sx mx ex]; destruct y as [| sy | sy my ey];
    cbn [is_double]; intros Hcx Hcy Hle; try discriminate Hle.
  - exact Hle.
  - destruct (formatNumber_signed sy my ey Hcy) as (s' & m' & e' & -> & _).
    exact Hle.
  - destruct (formatNumber_signed sx mx ex Hcx) as (s' & m' & e' & -> & _).
    exact Hle.
  - destruct (formatNumber_signed sx mx ex Hcx)
      as (sx' & mx' & ex' & Hfx & Hx0 & Hxz & Hxs).
    destruct (formatNumber_signed sy my ey Hcy)
      as (sy' & my' & ey' & Hfy & Hy0 & Hyz & Hys).
    pose proof (units_nonneg mx ex Hcx) as HVx.
    pose proof (units_nonneg my ey Hcy) as HVy.
    pose proof (λ H, formatNumber_magnitude_monotone sx sy sx' sy' mx ex my ey
                       mx' ex' my' ey' Hcx Hcy H Hfx Hfy) as Hup.
    pose proof (λ H, formatNumber_magnitude_monotone sy sx sy' sx' my ey mx ex
                       my' ey' mx' ex' Hcy Hcx H Hfy Hfx) as Hdown.
    rewrite Hfx, Hfy.
    unfold JSOrder.le, JSOrder.lt in *.
    apply negb_true_iff, Z.ltb_ge in Hle.
    apply negb_true_iff, Z.ltb_ge.
    rewrite Hxs, Hys. unfold JSOrder.signed_units in Hle.
    destruct sx, sy; lia.
Qed.

Lemma formatNumber_monotone_witness :
  is_double (literal false 45678 3) = true
  /\ is_double (literal false 4568 2) = true
  /\ JSOrder.le (literal false 45678 3) (literal false 4568 2) = true
  /\ JSOrder.le (formatNumber (literal false 45678 3))
       (formatNumber (literal false 4568 2)) = true.
Proof.
  do 3 (split; [reflexivity |]).
  apply formatNumber_monotone; reflexivity.
Defined.

End FormatNumberOrder.

(** ** Every writer of the network history keeps it bounded *)

Section HistoryWrites.

Lemma bounded_empty : bounded ∅.
Proof. intros serverIp history Hlook. rewrite lookup_empty in Hlook. discriminate. Qed.

Lemma history_updater_bounded (time serverIp : string) (networkData : value)
    (h : gmap string (list NetworkHistoryEntry)) :
  bounded h → bounded (history_updater time serverIp networkData h).
Proof.
  intros Hb k history. unfold history_updater.
  destruct (decide (serverIp = k)) as [-> | Hne].
  - rewrite lookup_insert_eq. intros [= <-].
    unfold JS.slice_last. rewrite length_drop. lia.
  - rewrite lookup_insert_ne by exact Hne. apply Hb.
Qed.

(** Whatever the history was, after a cleanup it is bounded. *)
Lemma cleanup_updater_bounded (h : gmap string (list NetworkHistoryEntry)) :
  bounded (cleanup_updater h).
Proof.
  intros k history. unfold cleanup_updater. rewrite lookup_fmap.
  destruct (h !! k) as [l |]; [| discriminate]. cbn [fmap option_fmap option_map].
  intros [= <-]. destruct (Nat.ltb_spec 30 (length l)); [| lia].
  unfold JS.slice_last. rewrite length_drop. lia.
Qed.

Lemma cleanup_updater_id (h : gmap string (list NetworkHistoryEntry)) :
  bounded h → cleanup_updater h = h.
Proof.
  intros Hb. apply map_eq. intros k. unfold cleanup_updater. rewrite lookup_fmap.
  destruct (h !! k) as [l |] eqn:Hlook; [| reflexivity].
  cbn [fmap option_fmap option_map]. f_equal.
  pose proof (Hb k l Hlook).
  destruct (Nat.ltb_spec 30 (length l)); [lia | reflexivity].
Qed.

(** X6: whatever sequence of appends, cleanups and unmounts is applied
    to the empty history, no history ever holds more than 30 entries, so
    a cleanup finds nothing to trim: it leaves every history the page can
    reach as it is. *)
Theorem cleanup_is_redundant (writes : list history_write) :
  let h := fold_left write_history writes ∅ in
  bounded h ∧ write_history h Cleanup = h.
Proof.
  intros h. assert (bounded h) as Hb; [| split; [exact Hb | apply cleanup_updater_id, Hb]].
  subst h. induction writes as [| w writes IH] using rev_ind.
  - apply bounded_empty.
  - rewrite fold_left_app. cbn [fold_left].
    destruct w as [time serverIp networkData | |]; cbn [write_history].
    + apply history_updater_bounded, IH.
    + apply cleanup_updater_bounded.
    + apply bounded_empty.
Qed.

End HistoryWrites.

(** ** A poll round as a whole *)

Section RoundProperties.
Context (toLocaleTimeString : N → string).
#[local] Set Warnings "-clear-no-such-hyp".

Lemma host_effect_history_bounded (server : Server) (o : fetch_outcome) (st : State) :
  bounded (networkHistory st) →
  bounded (networkHistory (host_effect toLocaleTimeString server o st)).
Proof.
  intros Hb. unfold host_effect. cbn [networkHistory].
  destruct (host_network o); [apply history_updater_bounded |]; exact Hb.
Qed.

Lemma host_effect_history_other (server : Server) (o : fetch_outcome) (st : State)
    (k : string) :
  k ≠ ip server →
  networkHistory (host_effect toLocaleTimeString server o st) !! k
  = networkHistory st !! k.
Proof.
  intros Hne. unfold host_effect. cbn [networkHistory].
  destruct (host_network o); [| reflexivity].
  unfold history_updater. apply lookup_insert_ne. congruence.
Qed.

Lemma round_effect_history (polls : list (Server * fetch_outcome)) (st : State) :
  (bounded (networkHistory st) →
   bounded (networkHistory (round_effect toLocaleTimeString polls st)))
  ∧ ∀ k, k ∉ (ip ∘ fst) <$> polls →
         networkHistory (round_effect toLocaleTimeString polls st) !! k
         = networkHistory st !! k.
Proof.
  induction polls as [| [server o] polls IH] using rev_ind.
  - split; [auto | reflexivity].
  - rewrite round_effect_snoc. destruct IH as [IHb IHk]. split.
    + intros Hb. apply host_effect_history_bounded, IHb, Hb.
    + intros k Hk. rewrite fmap_app, not_elem_of_app in Hk. destruct Hk as [Hk Hlast].
      rewrite host_effect_history_other; [apply IHk, Hk |].
      intros ->. apply Hlast. apply list_elem_of_here.
Qed.

(** X7: a poll round only appends: it leaves the history of every
    address it does not poll as it was, and if no history held more than
    30 entries before the round, none does after it, so that a cleanup
    right after the round changes nothing. *)
Theorem fetchServerData_history_frame (polls : list (Server * fetch_outcome))
    (st : State) :
  bounded (networkHistory st) →
  let st' := snd (fetchServerData toLocaleTimeString polls st) in
  bounded (networkHistory st')
  ∧ snd (cleanupNetworkHistory st') = st'
  ∧ ∀ k, k ∉ (ip ∘ fst) <$> polls →
         read_history st' k = read_history st k.
Proof.
  intros Hb st'. subst st'. rewrite fetchServerData_effect. cbn [snd].
  destruct (round_effect_history polls (snd (newData_reset st))) as [Hbounded Hframe].
  specialize (Hbounded Hb).
  split; [exact Hbounded |]. split.
  - cbn [cleanupNetworkHistory setNetworkHistory snd networkHistory serversData
         loading lastUpdate newData clock].
    rewrite (cleanup_updater_id _ Hbounded). reflexivity.
  - intros k Hk. unfold read_history. cbn [networkHistory].
    rewrite (Hframe k Hk). reflexivity.
Qed.

Lemma round_effect_newData_dom (polls : list (Server * fetch_outcome)) (st : State) :
  dom (newData (round_effect toLocaleTimeString polls st))
  =@{gset string} dom (newData st) ∪ list_to_set ((ip ∘ fst) <$> polls).
Proof.
  induction polls as [| [server o] polls IH] using rev_ind.
  - cbn. set_solver.
  - rewrite round_effect_snoc. unfold host_effect at 1. cbn [newData].
    rewrite dom_insert_L, IH, fmap_app, list_to_set_app_L. cbn. set_solver.
Qed.

Lemma round_effect_newData_start (polls : list (Server * fetch_outcome))
    (st1 st2 : State) :
  newData st1 = newData st2 →
  newData (round_effect toLocaleTimeString polls st1)
  = newData (round_effect toLocaleTimeString polls st2).
Proof.
  intros Heq. induction polls as [| [server o] polls IH] using rev_ind.
  - exact Heq.
  - rewrite !round_effect_snoc. unfold host_effect. cbn [newData]. rewrite IH.
    reflexivity.
Qed.

(** X8: a poll round replaces the status mapping wholesale: the
    published mapping has exactly the addresses polled in this round as
    its keys, and it is the same whatever the state was before the round
    (no entry of an earlier round survives, none is merged); the round
    also ends the loading state. *)
Theorem fetchServerData_replaces_statuses (polls : list (Server * fetch_outcome))
    (st : State) :
  let st' := snd (fetchServerData toLocaleTimeString polls st) in
  dom (serversData st') =@{gset string} list_to_set ((ip ∘ fst) <$> polls)
  ∧ (∀ other : State,
       serversData (snd (fetchServerData toLocaleTimeString polls other))
       = serversData st')
  ∧ loading st' = false.
Proof.
  intros st'. subst st'. rewrite fetchServerData_effect. cbn [snd serversData loading].
  split; [| split; [| reflexivity]].
  - rewrite round_effect_newData_dom. cbn. set_solver.
  - intros other. rewrite fetchServerData_effect. cbn [snd serversData].
    apply round_effect_newData_start. reflexivity.
Qed.

End RoundProperties.

(** ** A body that never ends *)

Section PendingBody.
Context (toLocaleTimeString : N → string).

Ltac run :=
  cbv [mbind mret mthrow M_bind M_ret M_throw result_bind result_ret result_throw
       try_catch lift await_fetch await_json elapse newData_assign newData_read
       newData_reset updateNetworkHistory setNetworkHistory setServersData
       setLoading setLastUpdate Date_now
       Pending.P_bind Pending.P_ret Pending.P_throw Pending.try_catch
       Pending.settled Pending.never Pending.await_fetch Pending.await_json
       Pending.ok Pending.delay_of].

(** On a request that settles, an iteration is the one of
    [fetchServerData_host]. *)
Lemma fetchServerData_host_settled (server : Server) (o : fetch_outcome) (st : State) :
  Pending.fetchServerData_host toLocaleTimeString server (settles o) st
  = Pending.settled (fetchServerData_host toLocaleTimeString server o) st.
Proof.
  unfold Pending.fetchServerData_host, fetchServerData_host, settles.
  destruct o as [d | d [okr jd [body |]]]; run; cbn [delay_of];
    destruct (timeout_ms <=? d)%N; try reflexivity;
    cbn [ok json json_delay]; destruct okr; try reflexivity.
  destruct body; reflexivity.
Qed.

Lemma fetchServerData_loop_settled (polls : list (Server * fetch_outcome)) (st : State) :
  Pending.fetchServerData_loop toLocaleTimeString (all_settle polls) st
  = Pending.Returned (Ok ()) (round_effect toLocaleTimeString polls st).
Proof.
  revert st. induction polls as [| [server o] rest IH]; intros st; [reflexivity |].
  cbn [all_settle fmap list_fmap prod_map fst snd id Pending.fetchServerData_loop].
  cbv [mbind Pending.P_bind].
  rewrite fetchServerData_host_settled. unfold Pending.settled.
  rewrite fetchServerData_host_effect. apply IH.
Qed.

(** When every body ends, the round is the one of [fetchServerData]. *)
Lemma fetchServerData_settled (polls : list (Server * fetch_outcome)) (st : State) :
  Pending.fetchServerData toLocaleTimeString (all_settle polls) st
  = Pending.settled (fetchServerData toLocaleTimeString polls) st.
Proof.
  unfold Pending.settled. rewrite fetchServerData_effect. cbv zeta.
  unfold Pending.fetchServerData. cbv [mbind Pending.P_bind].
  unfold Pending.settled at 1. cbn [newData_reset].
  rewrite fetchServerData_loop_settled. reflexivity.
Qed.

(** A success status within the 5000 ms and a body that never ends: the
    iteration stays suspended, and no handler runs. *)
Lemma fetchServerData_host_stalled (server : Server) (d : N) (st : State) :
  (d < timeout_ms)%N →
  Pending.fetchServerData_host toLocaleTimeString server (stalls d) st
  = Pending.Suspended (snd (elapse d st)).
Proof.
  intros Hd. apply N.leb_gt in Hd.
  unfold Pending.fetchServerData_host, stalls. run. rewrite Hd. reflexivity.
Qed.

(** The round stays suspended at the first body that never ends: the
    servers before it have been polled, none after it is ever requested,
    and [setServersData], [setLoading] and [setLastUpdate] are not
    reached. *)
Lemma fetchServerData_stalled (pre : list (Server * fetch_outcome)) (server : Server)
    (d : N) (post : list (Server * Pending.fetch_outcome)) (st : State) :
  (d < timeout_ms)%N →
  Pending.fetchServerData toLocaleTimeString
    (all_settle pre ++ (server, stalls d) :: post) st
  = Pending.Suspended
      (snd (elapse d (round_effect toLocaleTimeString pre (snd (newData_reset st))))).
Proof.
  intros Hd. unfold Pending.fetchServerData. cbv [mbind Pending.P_bind].
  unfold Pending.settled at 1. cbn [newData_reset snd].
  generalize {| serversData := serversData st; loading := loading st;
                lastUpdate := lastUpdate st; networkHistory := networkHistory st;
                newData := ∅; clock := clock st |}.
  induction pre as [| [server' o] pre IH]; intros st0.
  - cbn [all_settle fmap list_fmap app Pending.fetchServerData_loop].
    cbv [mbind Pending.P_bind].
    rewrite (fetchServerData_host_stalled server d st0 Hd). reflexivity.
  - cbn [all_settle fmap list_fmap prod_map fst snd id app Pending.fetchServerData_loop].
    cbv [mbind Pending.P_bind].
    rewrite fetchServerData_host_settled. unfold Pending.settled at 1.
    rewrite fetchServerData_host_effect. apply IH.
Qed.

Lemma fetchServerData_host_as_settled (server : Server) (o : Pending.fetch_outcome)
    (o' : fetch_outcome) (st : State) :
  as_settled o = Some o' →
  Pending.fetchServerData_host toLocaleTimeString server o st
  = Pending.Returned (Ok ()) (host_effect toLocaleTimeString server o' st).
Proof.
  intros Hsettled.
  assert (Pending.fetchServerData_host toLocaleTimeString server o st
          = Pending.fetchServerData_host toLocaleTimeString server (settles o') st) as ->.
  { destruct o as [d | d [response | status_ok]]; cbn [as_settled] in Hsettled.
    - injection Hsettled as <-. reflexivity.
    - injection Hsettled as <-. reflexivity.
    - destruct (timeout_ms <=? d)%N eqn:Htimeout; cbn [orb] in Hsettled.
      + injection Hsettled as <-. unfold Pending.fetchServerData_host, settles. run.
        rewrite Htimeout. reflexivity.
      + destruct status_ok; [discriminate |]. injection Hsettled as <-.
        unfold Pending.fetchServerData_host, settles. run. rewrite Htimeout. reflexivity. }
  rewrite fetchServerData_host_settled. unfold Pending.settled.
  rewrite fetchServerData_host_effect. reflexivity.
Qed.

Lemma as_settled_None (o : Pending.fetch_outcome) :
  as_settled o = None ↔ ∃ d, o = stalls d ∧ (d < timeout_ms)%N.
Proof.
  split.
  - destruct o as [d | d [response | status_ok]]; cbn [as_settled]; try discriminate.
    destruct (timeout_ms <=? d)%N eqn:Htimeout; [discriminate |].
    destruct status_ok; [| discriminate]. intros _.
    exists d. split; [reflexivity | apply N.leb_gt, Htimeout].
  - intros (d & -> & Hd). apply N.leb_gt in Hd. cbn. rewrite Hd. reflexivity.
Qed.

(** The loop ends, as the loop over requests that settle, or it is
    suspended at a body that never ends. *)
Lemma fetchServerData_loop_cases (polls : list (Server * Pending.fetch_outcome))
    (st : State) :
  (∃ polls',
     Forall2 (λ p p', p.1 = p'.1 ∧ as_settled p.2 = Some p'.2) polls polls'
     ∧ Pending.fetchServerData_loop toLocaleTimeString polls st
       = Pending.Returned (Ok ()) (round_effect toLocaleTimeString polls' st))
  ∨ (∃ st' server d,
       Pending.fetchServerData_loop toLocaleTimeString polls st = Pending.Suspended st'
       ∧ (server, stalls d) ∈ polls ∧ (d < timeout_ms)%N).
Proof.
  revert st. induction polls as [| [server o] polls IH]; intros st.
  - left. exists []. split; [constructor | reflexivity].
  - cbn [Pending.fetchServerData_loop]. cbv [mbind Pending.P_bind].
    destruct (as_settled o) as [o' |] eqn:Hsettled.
    + rewrite (fetchServerData_host_as_settled server o o' st Hsettled).
      destruct (IH (host_effect toLocaleTimeString server o' st))
        as [(polls' & Hall & Hrun) | (st' & server' & d & Hrun & Hin & Hd)].
      * left. exists ((server, o') :: polls'). split.
        { constructor; [split; [reflexivity | exact Hsettled] | exact Hall]. }
        rewrite Hrun. reflexivity.
      * right. exists st', server', d. split; [exact Hrun |].
        split; [apply list_elem_of_further, Hin | exact Hd].
    + apply as_settled_None in Hsettled as (d & -> & Hd).
      rewrite (fetchServerData_host_stalled server d st Hd).
      right. eexists _, server, d. split; [reflexivity |].
      split; [apply list_elem_of_here | exact Hd].
Qed.

(** A loop that passes a body that never ends is suspended. *)
Lemma fetchServerData_loop_suspended (polls : list (Server * Pending.fetch_outcome))
    (server : Server) (d : N) (st : State) :
  (server, stalls d) ∈ polls → (d < timeout_ms)%N →
  ∃ st', Pending.fetchServerData_loop toLocaleTimeString polls st
         = Pending.Suspended st'.
Proof.
  intros Hin Hd.
  destruct (fetchServerData_loop_cases polls st)
    as [(polls' & Hall & _) | (st' & _ & _ & Hrun & _)]; [exfalso | eauto].
  apply list_elem_of_lookup in Hin as [i Hi].
  destruct (Forall2_lookup_l _ _ _ i _ Hall Hi) as (p' & _ & _ & Hsettled).
  cbn [snd] in Hsettled.
  assert (as_settled (stalls d) = None) as Hnone
    by (apply as_settled_None; exists d; auto).
  congruence.
Qed.

(** The round after its loop: [setServersData], [setLoading] and
    [setLastUpdate] are reached when the loop ends. *)
Lemma fetchServerData_after_loop (polls : list (Server * Pending.fetch_outcome))
    (st : State) :
  Pending.fetchServerData toLocaleTimeString polls st
  = match Pending.fetchServerData_loop toLocaleTimeString polls (snd (newData_reset st)) with
    | Pending.Returned (Ok _) st1 =>
        Pending.Returned (Ok ())
          {| serversData := newData st1; loading := false;
             lastUpdate := clock st1; networkHistory := networkHistory st1;
             newData := newData st1; clock := clock st1 |}
    | Pending.Returned (Throw e) st1 => Pending.Returned (Throw e) st1
    | Pending.Suspended st1 => Pending.Suspended st1
    end.
Proof.
  unfold Pending.fetchServerData. cbv [mbind Pending.P_bind].
  unfold Pending.settled at 1. cbn [newData_reset snd].
  destruct (Pending.fetchServerData_loop _ _ _) as [[[] | e] st1 | st1]; reflexivity.
Qed.

(** A round that passes a body that never ends is suspended: it does
    not reach [setServersData]. *)
Lemma fetchServerData_suspended (polls : list (Server * Pending.fetch_outcome))
    (server : Server) (d : N) (st : State) :
  (server, stalls d) ∈ polls → (d < timeout_ms)%N →
  ∃ st', Pending.fetchServerData toLocaleTimeString polls st = Pending.Suspended st'.
Proof.
  intros Hin Hd. rewrite fetchServerData_after_loop.
  destruct (fetchServerData_loop_suspended polls server d (snd (newData_reset st)) Hin Hd)
    as [st1 ->].
  eexists. reflexivity.
Qed.

(** X18: one poll round never throws, whatever the network does.  It
    returns, its mapping published with an entry for every server of the
    sequence (an error marker, or the body a request to that address was
    answered with), whichever requests fail by a timeout, a transport
    failure, a non-success status or an unreadable body, provided no
    response that arrives within the 5000 ms with a success status has a
    body that never ends. *)
Theorem fetchServerData_returns_unless_a_body_never_ends
    (polls : list (Server * Pending.fetch_outcome)) (st : State) :
  (∀ e st', Pending.fetchServerData toLocaleTimeString polls st
            ≠ Pending.Returned (Throw e) st')
  ∧ ((∀ server d, (server, stalls d) ∈ polls → (timeout_ms ≤ d)%N) →
     ∃ st',
       Pending.fetchServerData toLocaleTimeString polls st
       = Pending.Returned (Ok ()) st'
       ∧ loading st' = false
       ∧ ∀ server o, (server, o) ∈ polls →
           ∃ status,
             read_status st' server = Some status
             ∧ (status = error_marker "Connection failed"
                ∨ status = error_marker "Failed to fetch"
                ∨ ∃ server' d response,
                    (server', Pending.Resolves d (Pending.Complete response)) ∈ polls
                    ∧ ip server' = ip server
                    ∧ ok response = true
                    ∧ json response = Some status)).
Proof.
  rewrite fetchServerData_after_loop.
  set (st0 := snd (newData_reset st)).
  split.
  - intros e st'.
    destruct (fetchServerData_loop_cases polls st0)
      as [(polls' & _ & ->) | (st1 & _ & _ & -> & _)]; discriminate.
  - intros Hends.
    destruct (fetchServerData_loop_cases polls st0)
      as [(polls' & Hall & ->) | (st1 & server & d & _ & Hin & Hd)];
      [| specialize (Hends server d Hin); lia].
    eexists. split; [reflexivity |]. split; [reflexivity |].
    intros server o Hin. unfold read_status. cbn [serversData].
    apply list_elem_of_lookup in Hin as [i Hi].
    destruct (Forall2_lookup_l _ _ _ i _ Hall Hi) as ([server1 o1] & Hi' & Hfst & _).
    cbn [fst] in Hfst. subst server1.
    apply list_elem_of_lookup_2 in Hi'.
    destruct (round_effect_newData_polled toLocaleTimeString polls' st0 server o1 Hi')
      as (server' & o' & Hin' & Hip & Hlook).
    exists (host_status o'). split; [exact Hlook |].
    unfold host_status.
    destruct (timeout_ms <=? delay_of o')%N; [left; reflexivity |].
    destruct o' as [d | d response]; [left; reflexivity |].
    destruct (ok response) eqn:Hok; [| right; left; reflexivity].
    destruct (json response) as [body |] eqn:Hjson; [| left; reflexivity].
    assert ((server', Pending.Resolves d (Pending.Complete response)) ∈ polls) as Horigin.
    { apply list_elem_of_lookup in Hin' as [j Hj].
      destruct (Forall2_lookup_r _ _ _ j _ Hall Hj) as ([server2 o2] & Hj' & Hfst & Hsettled).
      cbn [fst snd] in Hfst, Hsettled. subst server2.
      apply list_elem_of_lookup_2 in Hj'.
      destruct o2 as [d2 | d2 [response2 | status_ok]]; cbn [as_settled] in Hsettled.
      - discriminate.
      - injection Hsettled as -> ->. exact Hj'.
      - destruct ((timeout_ms <=? d2)%N || negb status_ok); [| discriminate].
        injection Hsettled as -> <-. discriminate. }
    destruct body; try (left; reflexivity);
      right; right; exists server', d, response; auto.
Qed.

End PendingBody.


(** ** What the server card shows *)

Section ServerCard.
Context (toLocaleTimeString : N → string).
Context (Number_toString : JSNumber.number → string).

(** X10: in a round over servers with distinct addresses, a server whose
    poll failed (timeout, transport failure, non-success status,
    unreadable or [null] body) is shown offline, with the message of its
    marker; a server whose poll succeeded is shown offline too when its
    body is falsy or has a truthy [error] field, and online otherwise. *)
Theorem failed_poll_is_shown_offline (polls : list (Server * fetch_outcome))
    (server : Server) (o : fetch_outcome) (st : State) :
  NoDup ((ip ∘ fst) <$> polls) →
  (server, o) ∈ polls →
  let data := read_status (snd (fetchServerData toLocaleTimeString polls st)) server in
  ((timeout_ms ≤ delay_of o)%N
   ∨ (∃ d, o = Rejects d)
   ∨ (∃ d response, o = Resolves d response
        ∧ (ok response = false ∨ json response = None
           ∨ json response = Some VNull)) →
   shown_offline data = true
   ∧ (offline_message data = VStr "Connection failed"
      ∨ offline_message data = VStr "Failed to fetch"))
  ∧ (∀ d response body,
       o = Resolves d response → (d < timeout_ms)%N → ok response = true →
       json response = Some body → body ≠ VNull → body ≠ VUndefined →
       shown_offline data
       = negb (JS.ToBoolean body) || JS.ToBoolean (JS.get_optional body "error")).
Proof.
  intros Hdistinct Hin data. subst data.
  rewrite (fetchServerData_status toLocaleTimeString polls server o st Hdistinct Hin).
  unfold host_status. split.
  - intros [Hto | [[d ->] | (d & response & -> & Hfail)]].
    + apply N.leb_le in Hto. rewrite Hto. auto.
    + destruct (_ <=? _)%N; auto.
    + cbn [delay_of]. destruct (_ <=? _)%N; [auto |].
      destruct Hfail as [-> | [-> | ->]]; [auto | |]; destruct (ok response); auto.
  - intros d response body -> Hd Hok Hjson Hnull Hundef.
    apply N.leb_gt in Hd. cbn [delay_of]. rewrite Hd, Hok, Hjson.
    destruct body; try contradiction; reflexivity.
Qed.

Lemma celsius_not_empty (n : JSNumber.number) :
  String.eqb (celsius Number_toString n) "" = false.
Proof.
  unfold celsius. destruct (Number_toString n); reflexivity.
Qed.

Ltac by_truthiness :=
  unfold or_number, present_and_truthy; cbn [mbind option_bind temp_cpu temp_rp1 temp_ssd];
  repeat match goal with
         | H : JSNumber.truthy ?x = _ |- context [JSNumber.truthy ?x] => rewrite H
         | |- context [JSNumber.truthy ?x] => destruct (JSNumber.truthy x) eqn:?
         end;
  rewrite ?celsius_not_empty; try reflexivity.

(** X11: on the card of a server that is not of type ['intel'] the
    temperature is coloured by the reading that is shown: the first
    truthy one among cpu, rp1 and ssd.  When none is truthy the text is
    ['N/A'] and the class is that of the ssd field (gray when it is
    absent). *)
Theorem card_temperature_matches_reading (server : Server) (t : Temperature) :
  String.eqb (type server) "intel" = false →
  String.eqb (type server) "n95" = false →
  card_temperature Number_toString server (Some t)
  = match present_and_truthy
            (or_number (or_number (temp_cpu t) (temp_rp1 t)) (temp_ssd t)) with
    | Some n => Some (getTempColor (Some n), celsius Number_toString n)
    | None => Some (getTempColor (temp_ssd t), "N/A")
    end.
Proof.
  intros Hintel Hn95.
  unfold card_temperature, card_temperature_reading, getTemperatureDisplay.
  rewrite Hintel, Hn95.
  destruct t as [[c |] [r |] [d |]]; by_truthiness.
Qed.

(** X12: on the card of an ['intel'] server the class is always that of
    the cpu field, while the text falls through to rp1 and ssd: with a
    cpu reading that is absent or 0 and a truthy rp1 reading, the rp1
    value is shown in the colour of the cpu field. *)
Theorem card_temperature_intel (server : Server) (t : Temperature)
    (n : JSNumber.number) :
  String.eqb (type server) "intel" = true →
  present_and_truthy (temp_cpu t) = None →
  present_and_truthy (temp_rp1 t) = Some n →
  card_temperature Number_toString server (Some t)
  = Some (getTempColor (temp_cpu t), celsius Number_toString n).
Proof.
  intros Hintel Hcpu Hrp1. unfold card_temperature, card_temperature_reading.
  rewrite Hintel. apply String.eqb_eq in Hintel. rewrite Hintel.
  cbn [getTemperatureDisplay String.eqb Ascii.eqb Bool.eqb mbind option_bind].
  rewrite Hcpu, Hrp1, celsius_not_empty. reflexivity.
Qed.

End ServerCard.

(** ** The labels of the server card *)

Section Labels.

Lemma append_cons (c : ascii) (s1 s2 : string) :
  String c s1 +:+ s2 = String c (s1 +:+ s2).
Proof. reflexivity. Qed.

(** The pieces of [s.split(sep)]: there is at least one, the first is
    the part of [s] before the first separator, the last the part after
    the last one, and a string without separator is its only piece. *)
Lemma split_pieces (sep : ascii) (s : string) :
  ∃ piece pieces,
    split sep s = piece :: pieces
    ∧ occurs sep piece = false
    ∧ (∃ rest, s = piece +:+ rest)
    ∧ occurs sep (List.last (piece :: pieces) EmptyString) = false
    ∧ (∃ before, s = before +:+ List.last (piece :: pieces) EmptyString)
    ∧ (pieces = [] → piece = s)
    ∧ (occurs sep s = false → pieces = []).
Proof.
  induction s as [| c s IH].
  - exists EmptyString, []. cbn. repeat split; try reflexivity;
      exists EmptyString; reflexivity.
  - destruct IH as (piece & pieces & Hsplit & Hfirst & [rest Hrest] & Hlast
                    & [before Hbefore] & Honly & Hnone).
    cbn [split occurs]. rewrite Hsplit.
    destruct (Ascii.eqb c sep) eqn:Hc.
    + exists EmptyString, (piece :: pieces).
      split; [reflexivity |]. split; [reflexivity |].
      split; [exists (String c s); reflexivity |].
      change (List.last (EmptyString :: piece :: pieces) EmptyString)
        with (List.last (piece :: pieces) EmptyString).
      split; [exact Hlast |].
      split; [exists (String c before); rewrite append_cons; f_equal; exact Hbefore |].
      split; discriminate.
    + exists (String c piece), pieces.
      split; [reflexivity |]. cbn [occurs]. rewrite Hc. cbn [orb].
      split; [exact Hfirst |].
      split; [exists rest; rewrite append_cons; f_equal; exact Hrest |].
      destruct pieces as [| piece' pieces].
      * cbn [List.last] in *. cbn [occurs]. rewrite Hc. cbn [orb].
        split; [exact Hlast |]. rewrite (Honly eq_refl).
        split; [exists EmptyString; reflexivity |].
        split; [reflexivity |]. intros _. reflexivity.
      * change (List.last (String c piece :: piece' :: pieces) EmptyString)
          with (List.last (piece' :: pieces) EmptyString).
        change (List.last (piece :: piece' :: pieces) EmptyString)
          with (List.last (piece' :: pieces) EmptyString) in Hlast, Hbefore.
        split; [exact Hlast |].
        split; [exists (String c before); rewrite append_cons; f_equal; exact Hbefore |].
        split; [discriminate | exact Hnone].
Qed.

Lemma split_first (sep : ascii) (s : string) :
  let first := hd EmptyString (split sep s) in
  occurs sep first = false
  ∧ (occurs sep s = false → first = s)
  ∧ ∃ rest, s = first +:+ rest.
Proof.
  destruct (split_pieces sep s)
    as (piece & pieces & -> & Hfirst & Hrest & _ & _ & Honly & Hnone).
  cbn. split; [exact Hfirst |]. split; [| exact Hrest].
  intros Hno. apply Honly, Hnone, Hno.
Qed.

Lemma split_last (sep : ascii) (s : string) :
  let final := List.last (split sep s) EmptyString in
  occurs sep final = false
  ∧ (occurs sep s = false → final = s)
  ∧ ∃ before, s = before +:+ final.
Proof.
  destruct (split_pieces sep s)
    as (piece & pieces & -> & _ & _ & Hlast & Hbefore & Honly & Hnone).
  cbv zeta. split; [exact Hlast |]. split; [| exact Hbefore].
  intros Hno. rewrite (Hnone Hno) in *. cbn. apply Honly. reflexivity.
Qed.

Lemma occurs_app (c : ascii) (s1 s2 : string) :
  occurs c (s1 +:+ s2) = occurs c s1 || occurs c s2.
Proof.
  induction s1 as [| c' s1 IH]; [reflexivity |].
  rewrite append_cons. cbn [occurs]. rewrite IH. apply orb_assoc.
Qed.

(** X13: the label of the top process is the part of the first word of
    its name that follows the last slash: it has no space and no slash,
    it is a piece of the name, and a name without space and slash is its
    own label.  The label of an address is what precedes its first
    colon. *)
Theorem process_label_spec (name : string) :
  occurs " " (process_label name) = false
  ∧ occurs "/" (process_label name) = false
  ∧ (∃ before rest, name = before +:+ process_label name +:+ rest)
  ∧ (occurs " " name = false → occurs "/" name = false → process_label name = name)
  ∧ occurs ":" (address_label name) = false
  ∧ (∃ rest, name = address_label name +:+ rest)
  ∧ (occurs ":" name = false → address_label name = name).
Proof.
  unfold process_label, address_label.
  destruct (split_first " " name) as (Hword_space & Hword_same & rest & Hname).
  destruct (split_first ":" name) as (Haddr_colon & Haddr_same & Haddr_rest).
  cbv zeta in *. set (word := hd EmptyString (split " " name)) in *.
  destruct (split_last "/" word) as (Hno_slash & Hsame & before & Hword).
  cbv zeta in *. set (label := List.last (split "/" word) EmptyString) in *.
  split.
  { rewrite Hword, occurs_app in Hword_space.
    apply orb_false_iff in Hword_space. tauto. }
  split; [exact Hno_slash |].
  split.
  { exists before, rest. rewrite Hname at 1. rewrite Hword at 1.
    clear. induction before as [| c before IH]; [reflexivity |].
    rewrite !append_cons, IH. reflexivity. }
  split.
  { intros Hspace Hslash. rewrite <- (Hword_same Hspace) in Hslash.
    rewrite (Hsame Hslash). apply Hword_same, Hspace. }
  split; [exact Haddr_colon |].
  split; [exact Haddr_rest | exact Haddr_same].
Qed.

End Labels.

(** ** The colour thresholds *)

Section Colours.
Import JSNumber.
Local Open Scope Z_scope.

Ltac order_cases :=
  unfold JSOrder.le, JSOrder.gt, JSOrder.lt;
  repeat match goal with
         | |- context [Z.ltb ?a ?b] => destruct (Z.ltb_spec a b)
         | H : context [Z.ltb ?a ?b] |- _ => destruct (Z.ltb_spec a b)
         | b : bool |- _ => destruct b
         end;
  cbn in *; try discriminate; try reflexivity; try lia.

Lemma lt_le_trans (c x y : number) :
  JSOrder.lt c x = true -> JSOrder.le x y = true -> JSOrder.lt c y = true.
Proof. destruct c, x, y; intros Hcx Hxy; order_cases. Qed.

Lemma le_trans (x y c : number) :
  JSOrder.le x y = true -> JSOrder.le y c = true -> JSOrder.le x c = true.
Proof. destruct c, x, y; intros Hxy Hyc; order_cases. Qed.

(** X14: the colours follow the order of the readings: when [x <= y],
    the colour [getStatusColor] gives [x] is no more severe than the one
    it gives [y] (green, amber, red), and likewise for the classes of
    [getTempColor] (green, yellow, orange, red).  A [NaN] percentage is
    green, a [NaN] temperature red, a missing temperature gray. *)
Theorem colours_follow_the_order (x y : number) :
  JSOrder.le x y = true ->
  (status_severity (getStatusColor x) <= status_severity (getStatusColor y))%nat
  /\ (temp_severity (getTempColor (Some x)) <= temp_severity (getTempColor (Some y)))%nat
  /\ getStatusColor NaN = "#10b981"%string
  /\ getTempColor (Some NaN) = "text-red-400"%string
  /\ getTempColor None = "text-gray-400"%string.
Proof.
  intros Hle. split; [| split; [| repeat split]].
  - unfold getStatusColor, JSOrder.gt.
    destruct (JSOrder.lt (JSOrder.integer 80) x) eqn:H80.
    + rewrite (lt_le_trans _ x y H80 Hle). reflexivity.
    + destruct (JSOrder.lt (JSOrder.integer 60) x) eqn:H60.
      * rewrite (lt_le_trans _ x y H60 Hle).
        destruct (JSOrder.lt (JSOrder.integer 80) y); cbn; lia.
      * cbn. lia.
  - unfold getTempColor.
    destruct (JSOrder.le y (JSOrder.integer 50)) eqn:H50.
    { rewrite (le_trans x y _ Hle H50). reflexivity. }
    destruct (JSOrder.le y (JSOrder.integer 65)) eqn:H65.
    { rewrite (le_trans x y _ Hle H65).
      destruct (JSOrder.le x (JSOrder.integer 50)); cbn; lia. }
    destruct (JSOrder.le y (JSOrder.integer 74)) eqn:H74.
    { rewrite (le_trans x y _ Hle H74).
      destruct (JSOrder.le x (JSOrder.integer 50));
        [| destruct (JSOrder.le x (JSOrder.integer 65))]; cbn; lia. }
    destruct (JSOrder.le x (JSOrder.integer 50));
      [| destruct (JSOrder.le x (JSOrder.integer 65));
         [| destruct (JSOrder.le x (JSOrder.integer 74))]]; cbn; lia.
Qed.

Lemma colours_follow_the_order_witness :
  JSOrder.le (literal false 615 1) (literal false 80 0) = true
  /\ (status_severity (getStatusColor (literal false 615 1))
      <= status_severity (getStatusColor (literal false 80 0)))%nat.
Proof.
  split; [reflexivity |].
  apply (colours_follow_the_order (literal false 615 1) (literal false 80 0)).
  reflexivity.
Defined.

End Colours.

(** ** The result of [formatServerData]: fields and processes *)

Section FormatServerDataResult.
Context (isX86TemperatureInfo : value → result bool).

Ltac next H :=
  let a := fresh "a" in
  let Ha := fresh "Ha" in
  apply result_bind_Ok in H as (a & Ha & H).

(** Reading a field after [{ ...props, k: v }]. *)
Lemma lookup_set_prop (k k' : string) (v : value) (props : list (string * value)) :
  JS.lookup_prop k (JS.set_prop k' v props)
  = if String.eqb k k' then v else JS.lookup_prop k props.
Proof.
  induction props as [| [k0 v0] props IH]; cbn [JS.set_prop JS.lookup_prop].
  - destruct (String.eqb k k'); reflexivity.
  - destruct (String.eqb_spec k' k0) as [-> | Hne]; cbn [JS.lookup_prop].
    + destruct (String.eqb k k0); reflexivity.
    + rewrite IH. destruct (String.eqb_spec k k0) as [-> | Hne']; [| reflexivity].
      destruct (String.eqb_spec k0 k'); [congruence | reflexivity].
Qed.

Lemma mapM_result_Ok {A B : Type} (f : A → result B) (l : list A) (k : list B) :
  mapM f l = Ok k → Forall2 (λ x y, f x = Ok y) l k.
Proof.
  revert k. induction l as [| x l IH]; intros k Hk; cbn in Hk.
  - injection Hk as <-. constructor.
  - next Hk. next Hk. injection Hk as <-. constructor; [exact Ha | apply IH, Ha0].
Qed.

Lemma format_process_Ok (process formatted : value) :
  format_process process = Ok formatted → process_rounded process formatted.
Proof.
  unfold format_process. intros H.
  next H. next Ha. apply formatNumber_field_Ok in Ha as (cpu & -> & ->).
  next H. next Ha. apply formatNumber_field_Ok in Ha as (memory & -> & ->).
  injection H as <-.
  destruct process as [| | b | n | s | elems | props]; try discriminate.
  exists cpu, memory. cbn [JS.spread JS.get] in *.
  split; [exact Ha0 |]. split; [exact Ha1 |].
  unfold mret, result_ret. rewrite !lookup_set_prop. cbn.
  split; [reflexivity |]. split; [reflexivity |].
  intros k Hcpu Hmemory. rewrite !lookup_set_prop.
  destruct (String.eqb_spec k "memory"); [contradiction |].
  destruct (String.eqb_spec k "cpu"); [contradiction | reflexivity].
Qed.

(** X15: when [formatServerData] returns, the processes of its result
    are those of the payload, as many and in the same order, each with
    its cpu and memory rounded by [formatNumber] and every other field
    (the name) as it was. *)
Theorem formatServerData_processes (props : list (string * value)) (out : value) :
  formatServerData isX86TemperatureInfo (VObj props) = Ok out →
  ∃ processes formatted,
    JS.get (VObj props) "processes" = Ok (VArr processes)
    ∧ JS.get out "processes" = Ok (VArr formatted)
    ∧ Forall2 process_rounded processes formatted.
Proof.
  intros Hout. unfold formatServerData in Hout.
  do 22 next Hout. next Hout. injection Hout as <-.
  next Ha21. destruct a22 as [| | b | n | s | elems | ps]; try discriminate.
  exists elems, a21. split; [exact Ha22 |]. split; [reflexivity |].
  apply mapM_result_Ok in Ha21.
  eapply Forall2_impl; [exact Ha21 |]. intros p p'. apply format_process_Ok.
Qed.

(** X16: when [formatServerData] returns, the own properties of its
    result ([Object.keys]) are the eight fields cpu, memory, disk,
    network, uptime, temperature, fan and processes, in this order and no
    other, whatever else the payload held, and the objects under them
    have the fields the source lists; the temperature has those of one of
    the two variants. *)
Theorem formatServerData_fields (props : list (string * value)) (out : value) :
  formatServerData isX86TemperatureInfo (VObj props) = Ok out →
  keys out = ["cpu"; "memory"; "disk"; "network"; "uptime"; "temperature"; "fan";
              "processes"]
  ∧ (∀ field fields,
       (field, fields) ∈
         [("cpu", ["usage"; "cores"; "temperature"]);
          ("memory", ["used"; "total"; "percentage"]);
          ("disk", ["used"; "total"; "percentage"]);
          ("network", ["download"; "upload"; "ping"; "errorRates"]);
          ("uptime", ["days"; "hours"; "minutes"]);
          ("fan", ["cpu"; "case1"; "case2"])] →
       ∃ object, JS.get out field = Ok object ∧ keys object = fields)
  ∧ (∃ temperature,
       JS.get out "temperature" = Ok temperature
       ∧ (keys temperature = ["cpu"; "gpu"; "motherboard"]
          ∨ keys temperature = ["cpu"; "rp1"; "ssd"])).
Proof.
  intros Hout. unfold formatServerData in Hout.
  do 18 next Hout. next Hout. do 4 next Hout. injection Hout as <-.
  split; [reflexivity |]. split.
  - intros field fields Hin.
    repeat (apply elem_of_cons in Hin as [[= -> ->] | Hin];
            [eexists; split; reflexivity |]).
    apply elem_of_nil in Hin. contradiction.
  - exists a17. split; [reflexivity |].
    destruct a16; do 3 next Ha17; injection Ha17 as <-; [left | right]; reflexivity.
Qed.

(** X17: rounding never inverts the ranking of two processes: when the
    cpu of one process of the payload is at most that of another, the
    same holds of the two processes at these positions in the result. *)
Theorem formatServerData_keeps_ranking (props : list (string * value)) (out : value)
    (processes : list value) (i j : nat) (p q : value) (cp cq : JSNumber.number) :
  formatServerData isX86TemperatureInfo (VObj props) = Ok out →
  JS.get (VObj props) "processes" = Ok (VArr processes) →
  processes !! i = Some p →
  processes !! j = Some q →
  JS.get p "cpu" = Ok (VNum cp) →
  JS.get q "cpu" = Ok (VNum cq) →
  JSNumber.is_double cp = true →
  JSNumber.is_double cq = true →
  JSOrder.le cq cp = true →
  ∃ formatted p' q' cp' cq',
    JS.get out "processes" = Ok (VArr formatted)
    ∧ formatted !! i = Some p'
    ∧ formatted !! j = Some q'
    ∧ JS.get p' "cpu" = Ok (VNum cp')
    ∧ JS.get q' "cpu" = Ok (VNum cq')
    ∧ JSOrder.le cq' cp' = true.
Proof.
  intros Hout Hget Hp Hq Hcp Hcq Hdp Hdq Hle.
  destruct (formatServerData_processes props out Hout)
    as (processes' & formatted & Hget' & Hres & Hall).
  rewrite Hget in Hget'. injection Hget' as <-.
  destruct (Forall2_lookup_l _ _ _ i p Hall Hp) as (p' & Hp' & cp0 & mp & Hcp0 & _ & Hcp' & _).
  destruct (Forall2_lookup_l _ _ _ j q Hall Hq) as (q' & Hq' & cq0 & mq & Hcq0 & _ & Hcq' & _).
  rewrite Hcp in Hcp0. injection Hcp0 as <-.
  rewrite Hcq in Hcq0. injection Hcq0 as <-.
  exists formatted, p', q', (formatNumber cp), (formatNumber cq).
  repeat (split; [assumption |]).
  apply formatNumber_monotone; assumption.
Qed.

End FormatServerDataResult.

(** ** The general properties at sample inputs *)

Lemma fetchServerData_history_frame_witness :
  let polls := [(RuthPiMaster, Resolves 10 (answer (sample_payload arm_temperature)))] in
  let st' := snd (fetchServerData sample_toLocaleTimeString polls sample_state) in
  bounded (networkHistory sample_state)
  ∧ length (read_history sample_state (ip RuthServer)) = 2
  ∧ read_history st' (ip RuthServer) = read_history sample_state (ip RuthServer)
  ∧ snd (cleanupNetworkHistory st') = st'.
Proof.
  intros polls st'.
  assert (bounded (networkHistory sample_state)) as Hb.
  { replace (networkHistory sample_state)
      with (cleanup_updater (networkHistory sample_state)) by reflexivity.
    apply cleanup_updater_bounded. }
  split; [exact Hb |]. split; [reflexivity |].
  destruct (fetchServerData_history_frame sample_toLocaleTimeString polls
              sample_state Hb) as (_ & Hcleanup & Hframe).
  split; [| exact Hcleanup].
  apply Hframe. apply not_elem_of_cons. split; [discriminate | apply not_elem_of_nil].
Defined.

Lemma failed_poll_is_shown_offline_witness :
  let polls :=
    zip servers
      [Resolves 10 (answer (sample_payload x86_temperature)); Rejects 3;
       Resolves 9000 (answer (sample_payload arm_temperature));
       Resolves 20 {| ok := false; json_delay := 0; json := None |}] in
  let st' := snd (fetchServerData sample_toLocaleTimeString polls (initial_state 0)) in
  NoDup ((ip ∘ fst) <$> polls)
  ∧ shown_offline (read_status st' RuthPiMaster) = true.
Proof.
  intros polls st'.
  assert (NoDup ((ip ∘ fst) <$> polls)) as Hdistinct
    by (apply (bool_decide_unpack _); vm_compute; exact I).
  split; [exact Hdistinct |].
  destruct (failed_poll_is_shown_offline sample_toLocaleTimeString polls
              RuthPiMaster (Rejects 3) (initial_state 0) Hdistinct
              ltac:(apply list_elem_of_further, list_elem_of_here)) as [Hfailed _].
  apply Hfailed. right. left. exists 3%N. reflexivity.
Defined.

Lemma card_temperature_matches_reading_witness :
  let t := {| temp_cpu := Some JSNumber.zero;
              temp_rp1 := Some (JSNumber.literal false 38 0);
              temp_ssd := None |} in
  String.eqb (type RuthPiMaster) "intel" = false
  ∧ String.eqb (type RuthPiMaster) "n95" = false
  ∧ card_temperature sample_Number_toString RuthPiMaster (Some t)
    = Some ("text-green-400",
            celsius sample_Number_toString (JSNumber.literal false 38 0)).
Proof.
  intros t. split; [reflexivity |]. split; [reflexivity |].
  rewrite (card_temperature_matches_reading sample_Number_toString RuthPiMaster t
             eq_refl eq_refl).
  reflexivity.
Defined.

Lemma card_temperature_intel_witness :
  let t := {| temp_cpu := None;
              temp_rp1 := Some (JSNumber.literal false 805 1);
              temp_ssd := None |} in
  String.eqb (type RuthServer) "intel" = true
  ∧ card_temperature sample_Number_toString RuthServer (Some t)
    = Some ("text-gray-400",
            celsius sample_Number_toString (JSNumber.literal false 805 1)).
Proof.
  intros t. split; [reflexivity |].
  apply (card_temperature_intel sample_Number_toString RuthServer t
           (JSNumber.literal false 805 1)); reflexivity.
Defined.

Lemma formatServerData_processes_witness :
  formatServerData isX86TemperatureInfo_by_presence (VObj ranked_payload)
  = Ok ranked_formatted
  ∧ ∃ processes formatted,
      JS.get (VObj ranked_payload) "processes" = Ok (VArr processes)
      ∧ JS.get ranked_formatted "processes" = Ok (VArr formatted)
      ∧ Forall2 process_rounded processes formatted.
Proof.
  assert (formatServerData isX86TemperatureInfo_by_presence (VObj ranked_payload)
          = Ok ranked_formatted) as Hout by reflexivity.
  split; [exact Hout |].
  exact (formatServerData_processes isX86TemperatureInfo_by_presence
           ranked_payload ranked_formatted Hout).
Defined.

Lemma formatServerData_fields_witness :
  formatServerData isX86TemperatureInfo_by_presence
    (VObj (("hostname", VStr "ruth") :: ranked_payload))
  = Ok ranked_formatted
  ∧ keys ranked_formatted
    = ["cpu"; "memory"; "disk"; "network"; "uptime"; "temperature"; "fan"; "processes"].
Proof.
  assert (formatServerData isX86TemperatureInfo_by_presence
            (VObj (("hostname", VStr "ruth") :: ranked_payload))
          = Ok ranked_formatted) as Hout by reflexivity.
  split; [exact Hout |].
  exact (proj1 (formatServerData_fields isX86TemperatureInfo_by_presence _ _ Hout)).
Defined.

Lemma formatServerData_keeps_ranking_witness :
  formatServerData isX86TemperatureInfo_by_presence (VObj ranked_payload)
  = Ok ranked_formatted
  ∧ JSOrder.le (JSNumber.literal false 12344 3) (JSNumber.literal false 12345 3) = true
  ∧ ∃ formatted p' q' cp' cq',
      JS.get ranked_formatted "processes" = Ok (VArr formatted)
      ∧ formatted !! 0%nat = Some p'
      ∧ formatted !! 1%nat = Some q'
      ∧ JS.get p' "cpu" = Ok (VNum cp')
      ∧ JS.get q' "cpu" = Ok (VNum cq')
      ∧ JSOrder.le cq' cp' = true.
Proof.
  assert (formatServerData isX86TemperatureInfo_by_presence (VObj ranked_payload)
          = Ok ranked_formatted) as Hout by reflexivity.
  split; [exact Hout |]. split; [reflexivity |].
  refine (formatServerData_keeps_ranking isX86TemperatureInfo_by_presence
            ranked_payload ranked_formatted _ 0 1 _ _
            (JSNumber.literal false 12345 3) (JSNumber.literal false 12344 3)
            Hout eq_refl eq_refl eq_refl eq_refl eq_refl eq_refl eq_refl eq_refl).
Defined.

(** The label of a process given by its command line. *)
Example process_label_of_command_line :
  process_label "/usr/bin/node server.js --port 80" = "node"
  ∧ process_label "sshd" = "sshd"
  ∧ process_label "/usr/sbin/ -x" = ""
  ∧ address_label "ruthcloud.xyz:8443" = "ruthcloud.xyz".
Proof. repeat split. Qed.

Lemma fetchServerData_returns_unless_a_body_never_ends_witness :
  let polls :=
    [(RuthServer, settles (Resolves 10 (answer (sample_payload x86_temperature))));
     (RuthPiMaster, stalls 9000);
     (RuthPiNode1, Pending.Resolves 10 (Pending.Endless false));
     (RuthPiNode2, settles (Rejects 3))] in
  (∀ server d, (server, stalls d) ∈ polls → (timeout_ms ≤ d)%N)
  ∧ ∃ st',
      Pending.fetchServerData sample_toLocaleTimeString polls (initial_state 0)
      = Pending.Returned (Ok ()) st'
      ∧ loading st' = false.
Proof.
  intros polls.
  assert (∀ server d, (server, stalls d) ∈ polls → (timeout_ms ≤ d)%N) as Hends.
  { intros server d Hin. unfold polls, stalls, settles in Hin.
    repeat (apply elem_of_cons in Hin as [Heq | Hin];
            [first [discriminate Heq | injection Heq as _ ->; vm_compute; discriminate] |]).
    apply elem_of_nil in Hin. contradiction. }
  split; [exact Hends |].
  destruct (fetchServerData_returns_unless_a_body_never_ends sample_toLocaleTimeString
              polls (initial_state 0)) as [_ Hreturns].
  destruct (Hreturns Hends) as (st' & Hrun & Hloading & _).
  exists st'. split; [exact Hrun | exact Hloading].
Defined.

(** C2 fails on the code: on the first round after the page is mounted,
    the first server answers with a success status after 10 ms and its
    body never ends, while the other three settle.  The abort timer is
    cleared when the headers arrive, so the call stays suspended at
    [await response.json()]: the other servers are never requested,
    [newData] holds no entry, and nothing is published (the status
    mapping is still empty and the page still loading).  When the body of
    the first server ends, the same round returns and publishes. *)
Lemma stalled_body_suspends_the_round :
  let others :=
    zip [RuthPiMaster; RuthPiNode1; RuthPiNode2]
      [Resolves 10 (answer (sample_payload arm_temperature)); Rejects 3;
       Resolves 20 (answer (sample_payload arm_temperature))] in
  (∃ st',
     Pending.fetchServerData sample_toLocaleTimeString
       ((RuthServer, stalls 10) :: all_settle others) (initial_state 0)
     = Pending.Suspended st'
     ∧ serversData st' = ∅ ∧ loading st' = true ∧ newData st' = ∅)
  ∧ ∃ st',
      Pending.fetchServerData sample_toLocaleTimeString
        (all_settle
           ((RuthServer, Resolves 10 (answer (sample_payload x86_temperature))) :: others))
        (initial_state 0)
      = Pending.Returned (Ok ()) st'
      ∧ loading st' = false
      ∧ read_status st' RuthServer = Some (sample_payload x86_temperature)
      ∧ read_status st' RuthPiNode2 = Some (sample_payload arm_temperature).
Proof.
  intros others. split.
  - eexists. split.
    + apply (fetchServerData_stalled sample_toLocaleTimeString [] RuthServer 10
               (all_settle others) (initial_state 0)).
      reflexivity.
    + vm_compute. repeat split.
  - eexists. split.
    + rewrite fetchServerData_settled. unfold Pending.settled.
      rewrite fetchServerData_effect. reflexivity.
    + vm_compute. repeat split.
Qed.
